(** * Queue resolution and job submission in [CIME.XML.env_batch]

    A shallow embedding of the methods of class [EnvBatch]
    (scripts/lib/CIME/XML/env_batch.py) that resolve queues, plan the
    dependencies between the jobs of a workflow and submit them, with the
    properties the specification states about them.

    Conventions of the embedding.
    - A Python value that may be [None] is an [option]; Python [int] is [Z];
      [str] is [string] (characters are code points below 256).
    - An exception is [Err e]; a method that may raise returns a [result].
      Methods that talk to the scheduler, run a job in process or touch the
      case object thread a [state] and return [result A * state]: what was
      done before an exception stays done.
    - The base classes [EnvBase]/[GenericXML], the module [CIME.utils] and the
      command runner are not part of this file of the repository.  They are
      interfaces here (type classes [GenericXML], [Utils], [Runtime]); every
      general statement holds for all their implementations.
    - env_batch.xml is validated against env_batch.xsd when the object is
      built ([__init__], line 26) and is not modified by the methods embedded
      here, so the accessors of the file are state-free. *)

From Stdlib Require Import ZArith String Ascii List Bool Lia DecimalString.
From stdpp Require Import gmap strings.
Import ListNotations.

Set Implicit Arguments.

(** ** Exceptions and results *)

Inductive exn : Type :=
| CIMEError (msg : string)   (* raised by [expect(False, msg)] *)
| ValueError                 (* [int] of a malformed literal, [list.index] of an absent item *)
| AttributeError             (* a method called on [None] *)
| TypeError                  (* [str.join] over a sequence that holds [None] *)
| UnboundLocalError          (* a local variable read before any assignment *)
| Raised (what : string).    (* an exception coming out of a collaborator *)

Inductive result (A : Type) : Type :=
| Ok (a : A)
| Err (e : exn).
Arguments Ok {A} a.
Arguments Err {A} e.

Definition rbind {A B : Type} (r : result A) (k : A -> result B) : result B :=
  match r with
  | Ok a => k a
  | Err e => Err e
  end.

Notation "'try!' x ':=' r 'in' k" := (rbind r (fun x => k))
  (at level 10, x name, r at level 100, k at level 200).

Definition expect (cond : bool) (msg : string) : result unit :=
  if cond then Ok tt else Err (CIMEError msg).

Definition is_ok {A : Type} (r : result A) : bool :=
  match r with Ok _ => true | Err _ => false end.

(** [v is not None] *)
Definition is_Some_b {A : Type} (v : option A) : bool :=
  match v with Some _ => true | None => false end.

(** ** Python string and integer primitives *)

Module Py.

(** [str.isspace] on one character: TAB..CR, FS..US, the blank, NEL and
    the no-break space. *)
Definition is_space (c : ascii) : bool :=
  let n := nat_of_ascii c in
  ((9 <=? n) && (n <=? 13)) || ((28 <=? n) && (n <=? 32))
  || (n =? 133) || (n =? 160).

Fixpoint lstrip (s : string) : string :=
  match s with
  | EmptyString => EmptyString
  | String c s' => if is_space c then lstrip s' else s
  end.

Fixpoint rev_string (s acc : string) : string :=
  match s with
  | EmptyString => acc
  | String c s' => rev_string s' (String c acc)
  end.

Definition rstrip (s : string) : string :=
  rev_string (lstrip (rev_string s EmptyString)) EmptyString.

(** [s.strip()] *)
Definition strip (s : string) : string := rstrip (lstrip s).

(** [s.split(sep)] for a one-character separator: never an empty list. *)
Fixpoint split_on (sep : ascii) (s : string) : list string :=
  match s with
  | EmptyString => [EmptyString]
  | String c s' =>
      if Ascii.eqb c sep then EmptyString :: split_on sep s'
      else match split_on sep s' with
           | w :: ws => String c w :: ws
           | [] => [String c EmptyString]
           end
  end.

(** [s.split()]: maximal runs of non-blank characters. *)
Fixpoint split_ws_from (cur : option string) (s : string) : list string :=
  match s with
  | EmptyString =>
      match cur with
      | Some w => [rev_string w EmptyString]
      | None => []
      end
  | String c s' =>
      if is_space c then
        match cur with
        | Some w => rev_string w EmptyString :: split_ws_from None s'
        | None => split_ws_from None s'
        end
      else
        match cur with
        | Some w => split_ws_from (Some (String c w)) s'
        | None => split_ws_from (Some (String c EmptyString)) s'
        end
  end.

Definition split_ws (s : string) : list string := split_ws_from None s.

(** [sep.join(items)] *)
Definition join (sep : string) (items : list string) : string :=
  String.concat sep items.

(** [s.startswith(p)] *)
Fixpoint startswith (p s : string) : bool :=
  match p, s with
  | EmptyString, _ => true
  | String a p', String b s' => Ascii.eqb a b && startswith p' s'
  | String _ _, EmptyString => false
  end.

(** [sub in s] *)
Fixpoint contains (sub s : string) : bool :=
  startswith sub s ||
  match s with
  | EmptyString => false
  | String _ s' => contains sub s'
  end.

(** [s.replace(old, new)] for a non-empty [old]: the occurrences are taken
    from the left and do not overlap.  [skip] counts the characters of a
    replaced occurrence still to be passed over. *)
Fixpoint replace_from (old new : string) (skip : nat) (s : string) : string :=
  match s with
  | EmptyString => EmptyString
  | String c s' =>
      match skip with
      | S k => replace_from old new k s'
      | O =>
          if startswith old s
          then String.append new (replace_from old new (Nat.pred (String.length old)) s')
          else String c (replace_from old new 0 s')
      end
  end.

Definition replace (old new s : string) : string := replace_from old new 0 s.

Definition digit_of (c : ascii) : option Z :=
  let n := nat_of_ascii c in
  if (48 <=? n) && (n <=? 57) then Some (Z.of_nat (n - 48)) else None.

(** Digits of a decimal literal; a single underscore may stand between two
    digits.  [prev] tells whether the previous character was a digit. *)
Fixpoint digits (prev : bool) (acc : Z) (s : string) : option Z :=
  match s with
  | EmptyString => if prev then Some acc else None
  | String c s' =>
      match digit_of c with
      | Some d => digits true (10 * acc + d) s'
      | None =>
          if Ascii.eqb c "_"%char && prev then
            match s' with
            | EmptyString => None
            | String c' _ =>
                match digit_of c' with
                | Some _ => digits false acc s'
                | None => None
                end
            end
          else None
      end
  end.

(** [int(s)] in base ten: [None] stands for [ValueError]. *)
Definition int (s : string) : option Z :=
  match strip s with
  | String "-" ds => option_map Z.opp (digits false 0 ds)
  | String "+" ds => digits false 0 ds
  | ds => digits false 0 ds
  end.

(** [str(n)] for a natural number. *)
Definition str_of_nat (n : nat) : string :=
  NilZero.string_of_uint (Nat.to_uint n).

(** [l.index(x)]: position of the first occurrence. *)
Fixpoint index (x : string) (l : list string) : option nat :=
  match l with
  | [] => None
  | y :: l' => if String.eqb y x then Some O else option_map S (index x l')
  end.

End Py.

(** ** Interfaces to the code outside this file *)

Definition attributes : Type := list (string * string).

(** The accessors inherited from [GenericXML] and [EnvBase]. *)
Class GenericXML (node : Type) : Type := {
  (** [GenericXML.get_children(name, attributes, root)]; no [root] is the
      root of the file. *)
  xml_get_children : option string -> option attributes -> option node -> list node;
  (** [get_optional_child(name, attributes, root)]: the base class raises
      when it does not know which child to return. *)
  get_optional_child : string -> option attributes -> option node -> result (option node);
  (** [self.text(node)] *)
  text : node -> string;
  (** [self.get(node, attribute_name)] *)
  get : node -> string -> option string;
  (** [self.get_resolved_value(value)] *)
  get_resolved_value : string -> result string;
  (** [EnvBase.get_value(item, attribute, resolved, subgroup)] *)
  envbase_get_value : string -> option attributes -> bool -> option string -> result (option string)
}.

(** Helpers of [CIME.utils] and of the Python library used by the pure
    methods. *)
Class Utils : Type := {
  (** [convert_to_seconds(time_str)] *)
  convert_to_seconds : string -> result Z;
  (** [get_batch_script_for_job(job)] *)
  get_batch_script_for_job : string -> string;
  (** [get_cime_config()]: [Some v] when the section has the option. *)
  cime_config : string -> string -> option string;
  (** [re.search(pattern, text)]: [None] without a match, else what
      [group(1)] gives, which may itself be [None]. *)
  re_search_group1 : string -> string -> result (option (option string));
  (** truth value of [eval(expression)] *)
  eval_truth : string -> result bool
}.

(** ** QueueCatalog and QueueResolver *)

(** The tuple returned by [get_queue_specs], in its order. *)
Record queue_specs : Type := {
  nodemin : option Z;
  nodemax : option Z;
  jobname : option string;
  walltimemax : option string;
  jobmin : option Z;
  jobmax : option Z;
  strict : bool
}.

Section QueueResolver.
Context {node : Type} {X : GenericXML node} {U : Utils}.

(** [get_children] (line 786): six entry names are looked up as
    [entry] elements by id, everything else goes to the base class. *)
Definition entry_names : list string :=
  ["JOB_WALLCLOCK_TIME"; "PROJECT"; "CHARGE_ACCOUNT";
   "PROJECT_REQUIRED"; "JOB_QUEUE"; "BATCH_COMMAND_FLAGS"].

Definition get_children (name : option string) (attrs : option attributes)
    (root : option node) : list node :=
  match name with
  | Some n =>
      if existsb (String.eqb n) entry_names
      then xml_get_children (Some "entry") (Some [("id", n)]) root
      else xml_get_children name attrs root
  | None => xml_get_children name attrs root
  end.

(** [get_all_queues] (line 777) *)
Fixpoint get_all_queues_from (bs_nodes nodes : list node) : result (list node) :=
  match bs_nodes with
  | [] => Ok nodes
  | bsnode :: rest =>
      try! qnode := get_optional_child "queues" None (Some bsnode) in
      match qnode with
      | Some q =>
          get_all_queues_from rest (nodes ++ get_children (Some "queue") None (Some q))
      | None => get_all_queues_from rest nodes
      end
  end.

Definition get_all_queues : result (list node) :=
  get_all_queues_from (get_children (Some "batch_system") None None) [].

(** [get_default_queue] (line 764): [cur] is the variable [node], which
    every [queues] element of every [batch_system] overwrites. *)
Fixpoint default_among (qnodes : list node) (cur : option node) : result (option node) :=
  match qnodes with
  | [] => Ok cur
  | qnode :: rest =>
      try! flagged := get_optional_child "queue" (Some [("default", "true")]) (Some qnode) in
      try! chosen :=
        match flagged with
        | Some _ => Ok flagged
        | None => get_optional_child "queue" None (Some qnode)
        end in
      default_among rest chosen
  end.

Fixpoint default_over (bs_nodes : list node) (cur : option node) : result (option node) :=
  match bs_nodes with
  | [] => Ok cur
  | bsnode :: rest =>
      try! cur' := default_among (get_children (Some "queues") None (Some bsnode)) cur in
      default_over rest cur'
  end.

Definition get_default_queue : result node :=
  try! found := default_over (get_children (Some "batch_system") None None) None in
  match found with
  | Some q => Ok q
  | None => Err (CIMEError "No queues found")
  end.

(** [None if v is None else int(v)] *)
Definition int_or_none (v : option string) : result (option Z) :=
  match v with
  | None => Ok None
  | Some s =>
      match Py.int s with
      | Some z => Ok (Some z)
      | None => Err ValueError
      end
  end.

(** Body of the [if] of [get_queue_specs] (lines 743-760). *)
Definition read_queue_specs (queue_node : node) : result queue_specs :=
  try! nmin := int_or_none (get queue_node "nodemin") in
  try! nmax := int_or_none (get queue_node "nodemax") in
  try! jmin := int_or_none (get queue_node "jobmin") in
  try! jmax := int_or_none (get queue_node "jobmax") in
  try! _ := expect (negb (is_Some_b nmin) || negb (is_Some_b jmin))
              "Cannot specify both nodemin and jobmin for a queue" in
  try! _ := expect (negb (is_Some_b nmax) || negb (is_Some_b jmax))
              "Cannot specify both nodemax and jobmax for a queue" in
  Ok {| nodemin := nmin; nodemax := nmax;
        jobname := get queue_node "jobname";
        walltimemax := get queue_node "walltimemax";
        jobmin := jmin; jobmax := jmax;
        strict := match get queue_node "strict" with
                  | Some v => String.eqb v "true"
                  | None => false
                  end |}.

Fixpoint find_queue_specs (nodes : list node) (queue : string)
    : result (option queue_specs) :=
  match nodes with
  | [] => Ok None
  | queue_node :: rest =>
      if String.eqb (text queue_node) queue
      then try! specs := read_queue_specs queue_node in Ok (Some specs)
      else find_queue_specs rest queue
  end.

(** [get_queue_specs] (line 735) *)
Definition get_queue_specs (queue : string) : result (option queue_specs) :=
  try! nodes := get_all_queues in
  find_queue_specs nodes queue.

(** [bound is not None and n < bound], [bound is not None and n > bound] *)
Definition under (n : Z) (bound : option Z) : bool :=
  match bound with Some b => (n <? b)%Z | None => false end.
Definition over (n : Z) (bound : option Z) : bool :=
  match bound with Some b => (n >? b)%Z | None => false end.

(** [queue_meets_spec] (line 688).  The warning of line 691 is not
    recorded: queue resolution only reads. *)
Definition queue_meets_spec (queue : string) (num_nodes num_tasks : Z)
    (walltime job : option string) : result bool :=
  try! specs := get_queue_specs queue in
  match specs with
  | None => Ok true
  | Some sp =>
      match job, jobname sp with
      | Some j, Some jn => Ok (String.eqb jn j)
      | _, _ =>
          if under num_nodes (nodemin sp) || over num_nodes (nodemax sp)
             || under num_tasks (jobmin sp) || over num_tasks (jobmax sp)
          then Ok false
          else
            match walltime, walltimemax sp with
            | Some wt, Some wtmax =>
                if strict sp then
                  try! walltime_s := convert_to_seconds wt in
                  try! walltimemax_s := convert_to_seconds wtmax in
                  if (walltime_s >? walltimemax_s)%Z then Ok false else Ok true
                else Ok true
            | _, _ => Ok true
            end
      end
  end.

(** [_get_all_queue_names] (line 714): the default queue is put in front
    of the list of all queues, which still holds it. *)
Definition _get_all_queue_names : result (list string) :=
  try! all_queues := get_all_queues in
  try! default := get_default_queue in
  Ok (map text (default :: all_queues)).

(** The [for] loop of [select_best_queue]. *)
Fixpoint first_meeting (qnames : list string) (num_nodes num_tasks : Z)
    (walltime job : option string) : result (option string) :=
  match qnames with
  | [] => Ok None
  | qname :: rest =>
      try! meets := queue_meets_spec qname num_nodes num_tasks walltime job in
      if meets then Ok (Some qname)
      else first_meeting rest num_nodes num_tasks walltime job
  end.

(** [select_best_queue] (line 726) *)
Definition select_best_queue (num_nodes num_tasks : Z)
    (walltime job : option string) : result (option string) :=
  try! qnames := _get_all_queue_names in
  first_meeting qnames num_nodes num_tasks walltime job.

(** A queue element sets both attributes [a] and [b]. *)
Definition both_set (n : node) (a b : string) : Prop :=
  is_Some (get n a) /\ is_Some (get n b).

(** What reading such an element raises: the failure of one of the two
    [expect] calls, or [ValueError] when a bound is not a number. *)
Definition exclusive_bounds_error (e : exn) : Prop :=
  e = ValueError
  \/ e = CIMEError "Cannot specify both nodemin and jobmin for a queue"
  \/ e = CIMEError "Cannot specify both nodemax and jobmax for a queue".

End QueueResolver.

(** ** State of a submission *)

(** The attributes of the [EnvBatch] object itself. *)
Record EnvBatch : Type := { _batchtype : option string }.

(** What the logger is told, one constructor per call site that is kept. *)
Inductive event : Type :=
| Debug_index (index : nat) (job : string) (startindex : nat)   (* line 428 *)
| Debug_depends (job : string) (dep_jobs : list string)         (* line 475 *)
| Warning_submit (job : string)                                 (* line 562 *)
| Info_starting (job : string)                                  (* line 565 *)
| Debug_dependencies (dep_jobs : list string)                   (* line 580 *)
| Warning_no_allow_string                                       (* line 584 *)
| Info_submitting (submitcmd : string)                          (* line 655 *)
| Info_submitted (jobid : option string)                        (* line 658 *)
| Warning_cancel_unsupported                                    (* line 815 *)
| Warning_cancel_failed (cmd : string) (output : string).       (* line 822 *)

(** The case object with its RESUBMIT counter, and whatever else lies
    behind it (files, the scheduler). *)
Record world (ext : Type) : Type := {
  RESUBMIT : Z;
  outside : ext
}.

Record state (ext : Type) : Type := {
  the_world : world ext;
  log : list event
}.

(** The command runner, the case object and [get_submit_args]. *)
Class Runtime (ext : Type) : Type := {
  (** [run_cmd(cmd)]: exit status, output, error output. *)
  run_cmd : string -> world ext -> (Z * string * string) * world ext;
  (** [run_cmd_no_fail(cmd, combine_output=True)]: raises on a nonzero
      exit status. *)
  run_cmd_no_fail : string -> world ext -> result string * world ext;
  (** [case.get_resolved_value(text)] *)
  case_get_resolved_value : string -> world ext -> result string;
  (** [getattr(case, function_name)] applied to keyword arguments: the job
      run in process. *)
  case_call : string -> list (string * bool) -> world ext -> result unit * world ext;
  (** [get_submit_args(case, job)] (line 356) folds the [submit_args]
      elements of the file into a flag string and calls Python's [eval] on
      configured values; its outcome is taken as given. *)
  get_submit_args : EnvBatch -> string -> world ext -> result string
}.

(** Computations that may raise and that change the state. *)
Definition M (ext A : Type) : Type := state ext -> result A * state ext.

Definition ret {ext A : Type} (a : A) : M ext A := fun st => (Ok a, st).

Definition raise {ext A : Type} (e : exn) : M ext A := fun st => (Err e, st).

Definition bind {ext A B : Type} (m : M ext A) (k : A -> M ext B) : M ext B :=
  fun st =>
    match m st with
    | (Ok a, st') => k a st'
    | (Err e, st') => (Err e, st')
    end.

Notation "'do!' x ':=' m 'in' k" := (bind m (fun x => k))
  (at level 10, x name, m at level 100, k at level 200).

(** A pure method called from a stateful one. *)
Definition lift {ext A : Type} (r : result A) : M ext A := fun st => (r, st).

Definition emit {ext : Type} (e : event) : M ext unit :=
  fun st => (Ok tt, {| the_world := the_world st; log := log st ++ [e] |}).

(** A collaborator that reads the world. *)
Definition ask {ext A : Type} (f : world ext -> result A) : M ext A :=
  fun st => (f (the_world st), st).

(** A collaborator that changes the world. *)
Definition act {ext A : Type} (f : world ext -> A * world ext) : M ext A :=
  fun st => let (a, w) := f (the_world st) in
            (Ok a, {| the_world := w; log := log st |}).

Definition act_or_raise {ext A : Type} (f : world ext -> result A * world ext) : M ext A :=
  fun st => let (r, w) := f (the_world st) in
            (r, {| the_world := w; log := log st |}).

(** What [submit_jobs] returns: [jobcmds] on a dry run, else [depid]. *)
Inductive submitted : Type :=
| JobCmds (jobcmds : list (string * option string))
| DepIds (depid : gmap string (option string)).

(** The variables the two loops of [submit_jobs] update. *)
Record loop_vars : Type := {
  depid : gmap string (option string);
  jobcmds : list (string * option string);
  batch_job_id : option (option string)   (* [None]: not assigned yet *)
}.

(** ** SubmissionCommandBuilder *)

(** [str(value)] of an optional string *)
Definition str_of_opt (v : option string) : string :=
  match v with Some s => s | None => "None" end.

(** [if value:] on an optional string *)
Definition truthy (v : option string) : bool :=
  match v with
  | Some (String _ _) => true
  | _ => false
  end.

Definition newline : string := String (ascii_of_nat 10) EmptyString.

Fixpoint assoc {A : Type} (key : string) (d : list (string * A)) : option A :=
  match d with
  | [] => None
  | (k, v) :: d' => if String.eqb k key then Some v else assoc key d'
  end.

(** [_get_supported_args] (line 500): the dictionary in insertion order. *)
Definition _get_supported_args (job : string) (no_batch : bool) : list (string * string) :=
  (if existsb (String.eqb job) ["case.run"; "case.test"]
   then [("skip_pnl", "--skip-preview-namelist")] else [])
  ++ (if String.eqb job "case.run"
      then [("set_continue_run", "--completion-sets-continue-run")] else [])
  ++ (if existsb (String.eqb job) ["case.st_archive"; "case.run"]
      then if String.eqb job "case.st_archive" && no_batch
           then [("resubmit", "--resubmit")]
           else [("submit_resubmits", "--resubmit")]
      else []).

(** [_build_run_args] (line 525): [run_args] are the keyword arguments in
    the order they are written at the call. *)
Definition _build_run_args (job : string) (no_batch : bool)
    (run_args : list (string * bool)) : list (string * (bool * string)) :=
  let supported_args := _get_supported_args job no_batch in
  flat_map (fun kv : string * bool =>
              let (arg_name, arg_value) := kv in
              if arg_value then
                match assoc arg_name supported_args with
                | Some flag => [(arg_name, (arg_value, flag))]
                | None => []
                end
              else [])
           run_args.

Section Submission.
Context {node ext : Type} {X : GenericXML node} {U : Utils} {R : Runtime ext}.

(** [get_jobs] (line 117).  The schema gives every group an id; a group
    without one is left out. *)
Definition get_jobs : list string :=
  flat_map (fun group =>
              match get group "id" with
              | Some id =>
                  if existsb (String.eqb id) ["job_submission"; "config_batch"]
                  then [] else [id]
              | None => []
              end)
           (get_children (Some "group") None None).

(** The loop of [get_value] over the [batch_system] elements (line 83):
    the last one that has the item wins. *)
Fixpoint last_in_batch_systems (bs_nodes : list node) (item : string)
    (attribute : option attributes) (found : option node) : result (option node) :=
  match bs_nodes with
  | [] => Ok found
  | bsnode :: rest =>
      try! cnode := get_optional_child item attribute (Some bsnode) in
      last_in_batch_systems rest item attribute
        (match cnode with Some _ => cnode | None => found end)
  end.

(** [get_value] (line 72) *)
Definition get_value (item : string) (attribute : option attributes)
    (resolved : bool) (subgroup : option string) : result (option string) :=
  match subgroup with
  | None =>
      try! top := get_optional_child item attribute None in
      try! found :=
        match top with
        | Some _ => Ok top
        | None =>
            last_in_batch_systems (get_children (Some "batch_system") None None)
              item attribute None
        end in
      match found with
      | Some n =>
          if resolved
          then try! value := get_resolved_value (text n) in Ok (Some value)
          else Ok (Some (text n))
      | None => envbase_get_value item attribute resolved None
      end
  | Some sg =>
      let sg' :=
        if String.eqb sg "PRIMARY"
        then if existsb (String.eqb "case.test") get_jobs
             then "case.test" else "case.run"
        else sg in
      envbase_get_value item attribute resolved (Some sg')
  end.

(** [_build_run_args_str] (line 542) *)
Definition _build_run_args_str (job : string) (no_batch : bool)
    (run_args : list (string * bool)) : result string :=
  let args := _build_run_args job no_batch run_args in
  let run_args_str := Py.join " " (map (fun kv => snd (snd kv)) args) in
  try! batch_env_flag := get_value "batch_env" None true None in
  if truthy batch_env_flag
  then Ok (str_of_opt batch_env_flag +:+ " ARGS_FOR_SCRIPT='" +:+ run_args_str +:+ "'")
  else Ok run_args_str.

Definition mail_type_names : list string := ["never"; "all"; "begin"; "end"; "fail"].

(** [get_batch_mail_type] (line 661) *)
Definition get_batch_mail_type (mail_type : string) : result (option string) :=
  try! raw := get_value "batch_mail_type" None true None in
  match raw with
  | None => Err AttributeError
  | Some raw =>
      let mail_types := map Py.strip (Py.split_on ","%char raw) in
      match Py.index mail_type mail_type_names with
      | None => Err ValueError
      | Some idx => Ok (nth_error mail_types idx)
      end
  end.

(** [get_job_id] (line 679) *)
Definition get_job_id (output : string) : result (option string) :=
  try! jobid_pattern := get_value "jobid_pattern" None true None in
  match jobid_pattern with
  | None => Err (CIMEError "Could not find jobid_pattern in env_batch.xml")
  | Some pattern =>
      try! search_match := re_search_group1 pattern output in
      match search_match with
      | None =>
          Err (CIMEError ("Couldn't match jobid_pattern '" +:+ pattern
                          +:+ "' within submit output:" +:+ newline
                          +:+ " '" +:+ output +:+ "'"))
      | Some jobid => Ok jobid
      end
  end.

(** The dependency clause of [_submit_single_job] (lines 579-599), for a
    non-empty list [d0 :: ds]; returns the extended [submitargs]. *)
Definition dependency_clause (allow_fail : bool) (d0 : string) (ds : list string)
    (submitargs : string) : M ext string :=
  do! _ := emit (Debug_dependencies (d0 :: ds)) in
  do! dep_string :=
    if allow_fail then
      do! allowed := lift (get_value "depend_allow_string" None true None) in
      match allowed with
      | None =>
          do! _ := emit Warning_no_allow_string in
          lift (get_value "depend_string" None true None)
      | Some _ => ret allowed
      end
    else lift (get_value "depend_string" None true None) in
  match dep_string with
  | None => raise (CIMEError "'depend_string' is not defined for this batch system")
  | Some dep_string =>
      do! separator_string := lift (get_value "depend_separator" None true None) in
      match separator_string with
      | None => raise (CIMEError "depend_separator string not defined")
      | Some separator_string =>
          if negb (Py.contains "jobid" dep_string)
          then raise (CIMEError "depend_string is missing jobid for prerequisite jobs")
          else
            let dep_ids_str :=
              fold_left (fun acc dep_id => acc +:+ separator_string +:+ dep_id) ds d0 in
            let dep_string := Py.replace "jobid" (Py.strip dep_ids_str) dep_string in
            ret (submitargs +:+ " " +:+ dep_string)
      end
  end.

(** The mail-type flags (lines 614-637); returns the extended
    [submitargs]. *)
Fixpoint mail_type_args_of (mail_type : list string) : result (list (option string)) :=
  match mail_type with
  | [] => Ok []
  | indv_type :: rest =>
      try! mail_type_arg := get_batch_mail_type indv_type in
      try! others := mail_type_args_of rest in
      Ok (mail_type_arg :: others)
  end.

(** [sep.join(items)] when an item may be [None] *)
Fixpoint all_strings (items : list (option string)) : result (list string) :=
  match items with
  | [] => Ok []
  | Some s :: rest => try! others := all_strings rest in Ok (s :: others)
  | None :: _ => Err TypeError
  end.

Definition mail_type_clause (job : string) (mail_type : option (list string))
    (submitargs : string) : result string :=
  try! mail_type :=
    match mail_type with
    | Some given => Ok given
    | None =>
        try! configured :=
          match (if String.eqb job "case.test"
                 then cime_config "create_test" "MAIL_TYPE" else None) with
          | Some v => Ok (Some v)
          | None =>
              match cime_config "main" "MAIL_TYPE" with
              | Some v => Ok (Some v)
              | None => get_value "batch_mail_default" None true (Some "PRIMARY")
              end
          end in
        if truthy configured
        then Ok (Py.split_on ","%char (str_of_opt configured))
        else Ok []
    end in
  match mail_type with
  | [] => Ok submitargs
  | _ :: _ =>
      try! mail_type_flag := get_value "batch_mail_type_flag" None true None in
      match mail_type_flag with
      | None => Ok submitargs
      | Some flag =>
          try! mail_type_args := mail_type_args_of mail_type in
          try! shown := all_strings mail_type_args in
          if String.eqb flag "-m"
          then Ok (submitargs +:+ " " +:+ flag +:+ " " +:+ Py.join EmptyString shown)
          else Ok (submitargs +:+ " " +:+ flag +:+ " "
                   +:+ Py.join (" " +:+ flag +:+ " ") shown)
      end
  end.

(** [_submit_single_job] (line 558) *)
Definition _submit_single_job (self : EnvBatch) (job : string)
    (dep_jobs : option (list string)) (allow_fail no_batch skip_pnl : bool)
    (mail_user : option string) (mail_type : option (list string))
    (batch_args : option string) (dry_run resubmit_immediate : bool)
    : M ext (option string) :=
  do! _ := if dry_run then ret tt else emit (Warning_submit job) in
  do! batch_system := lift (get_value "BATCH_SYSTEM" None true None) in
  if match batch_system with
     | None => true
     | Some name => String.eqb name "none"
     end || no_batch
  then
    do! _ := emit (Info_starting job) in
    let function_name := Py.replace "." "_" job in
    do! _ :=
      if dry_run then ret tt
      else
        let args := _build_run_args job true
                      [("skip_pnl", skip_pnl);
                       ("set_continue_run", resubmit_immediate);
                       ("submit_resubmits", negb resubmit_immediate)] in
        act_or_raise (case_call function_name
                        (map (fun kv => (fst kv, fst (snd kv))) args)) in
    ret None
  else
    do! submitargs := ask (get_submit_args self job) in
    do! args_override := lift (get_value "BATCH_COMMAND_FLAGS" None true (Some job)) in
    let submitargs := if truthy args_override then str_of_opt args_override else submitargs in
    do! submitargs :=
      match dep_jobs with
      | Some (d0 :: ds) => dependency_clause allow_fail d0 ds submitargs
      | _ => ret submitargs
      end in
    let submitargs :=
      match batch_args with
      | Some extra => submitargs +:+ " " +:+ extra
      | None => submitargs
      end in
    let mail_user :=
      match mail_user with
      | Some _ => mail_user
      | None => cime_config "main" "MAIL_USER"
      end in
    do! submitargs :=
      match mail_user with
      | Some user =>
          do! mail_user_flag := lift (get_value "batch_mail_flag" None true None) in
          match mail_user_flag with
          | Some flag => ret (submitargs +:+ " " +:+ flag +:+ " " +:+ user)
          | None => ret submitargs
          end
      | None => ret submitargs
      end in
    do! submitargs := lift (mail_type_clause job mail_type submitargs) in
    do! batchsubmit := lift (get_value "batch_submit" None true None) in
    match batchsubmit with
    | None => raise (CIMEError "Unable to determine the correct command for batch submission.")
    | Some batchsubmit =>
        do! batchredirect := lift (get_value "batch_redirect" None true None) in
        do! batch_env_flag := lift (get_value "batch_env" None true None) in
        do! run_args := lift (_build_run_args_str job false
                                [("skip_pnl", skip_pnl);
                                 ("set_continue_run", resubmit_immediate);
                                 ("submit_resubmits", negb resubmit_immediate)]) in
        let script := get_batch_script_for_job job in
        let sequence :=
          if truthy batch_env_flag
          then [Some batchsubmit; Some submitargs; Some run_args; batchredirect; Some script]
          else [Some batchsubmit; Some submitargs; batchredirect; Some script; Some run_args] in
        let submitcmd :=
          Py.join " " (flat_map (fun s => match s with
                                          | Some s => [Py.strip s]
                                          | None => []
                                          end) sequence) in
        if dry_run then ret (Some submitcmd)
        else
          do! _ := emit (Info_submitting submitcmd) in
          do! output := act_or_raise (run_cmd_no_fail submitcmd) in
          do! jobid := lift (get_job_id output) in
          do! _ := emit (Info_submitted jobid) in
          ret jobid
    end.

(** *** DependencyPlanner and SubmissionOrchestrator: [submit_jobs] *)

Definition is_cobalt (self : EnvBatch) : bool :=
  match _batchtype self with
  | Some t => String.eqb t "cobalt"
  | None => false
  end.

(** The [try] block of lines 431-439.  Whatever is raised inside it is
    turned into the failure of line 439, whose message reads the
    expression once more. *)
Definition prereq_holds (dry_run : bool) (firstjob : option string) (job : string)
    : M ext bool :=
  fun st =>
    let attempt :=
      try! prereq := get_value "prereq" None false (Some job) in
      match prereq with
      | None => Ok true
      | Some expr =>
          if match firstjob with Some f => String.eqb job f | None => false end
             || dry_run && String.eqb expr "$BUILD_COMPLETE"
          then Ok true
          else
            try! resolved := case_get_resolved_value expr (the_world st) in
            eval_truth resolved
      end in
    match attempt with
    | Ok b => (Ok b, st)
    | Err _ =>
        match get_value "prereq" None true (Some job) with
        | Ok shown =>
            (Err (CIMEError ("Unable to evaluate prereq expression '"
                             +:+ str_of_opt shown +:+ "' for job '" +:+ job +:+ "'")), st)
        | Err e => (Err e, st)
        end
    end.

(** The first loop of [submit_jobs] (lines 427-445) from position [index]
    of [alljobs] on. *)
Fixpoint eligible_from (self : EnvBatch) (dry_run : bool) (firstjob : option string)
    (startindex index : nat) (remaining : list string)
    (jobs : list (string * option string)) : M ext (list (string * option string)) :=
  match remaining with
  | [] => ret jobs
  | job :: rest =>
      do! _ := emit (Debug_index index job startindex) in
      if (index <? startindex)%nat
      then eligible_from self dry_run firstjob startindex (S index) rest jobs
      else
        do! prereq := prereq_holds dry_run firstjob job in
        do! jobs :=
          if prereq then
            do! dependency := lift (get_value "dependency" None true (Some job)) in
            ret (jobs ++ [(job, dependency)])
          else ret jobs in
        if is_cobalt self then ret jobs
        else eligible_from self dry_run firstjob startindex (S index) rest jobs
  end.

(** Lines 419-445: the jobs to submit, each with its [dependency] value. *)
Definition eligible_jobs (self : EnvBatch) (job : option string) (dry_run : bool)
    : M ext (list (string * option string)) :=
  let alljobs := get_jobs in
  do! startindex :=
    match job with
    | None => ret O
    | Some j =>
        match Py.index j alljobs with
        | Some i => ret i
        | None => raise (CIMEError ("Do not know about batch job " +:+ j))
        end
    end in
  eligible_from self dry_run job startindex O alljobs [].

(** Lines 450-456: the number of rounds; the counter of the case is read
    and cleared only when an immediate resubmission is asked for. *)
Definition plan_num_submit (resubmit_immediate : bool) : M ext Z :=
  fun st =>
    if resubmit_immediate then
      let num_submit := (RESUBMIT (the_world st) + 1)%Z in
      let st' := {| the_world := {| RESUBMIT := 0; outside := outside (the_world st) |};
                    log := log st |} in
      if (num_submit <=? 0)%Z then (Ok 1%Z, st') else (Ok num_submit, st')
    else (Ok 1%Z, st).

(** Lines 462-473: the list [dep_jobs] of one job. *)
Definition dep_jobs_of (user_prereq : option string) (dependency : option string)
    (depid : gmap string (option string)) (prev_job : option string) : list string :=
  let deps := match dependency with
              | Some d => Py.split_ws d
              | None => []
              end in
  match user_prereq with Some p => [p] | None => [] end
  ++ flat_map (fun dep => match depid !! dep with
                          | Some (Some id) => [id]
                          | _ => []
                          end) deps
  ++ match prev_job with Some p => [p] | None => [] end.

(** The identifiers [dep_jobs_of] takes from the declared dependencies. *)
Definition declared_ids (dependency : option string)
    (depid : gmap string (option string)) : list string :=
  flat_map (fun dep => match depid !! dep with
                       | Some (Some id) => [id]
                       | _ => []
                       end)
           (match dependency with Some d => Py.split_ws d | None => [] end).

Section Rounds.
Variables (self : EnvBatch) (alljobs : list string).
Variables (no_batch : bool) (user_prereq : option string) (skip_pnl allow_fail : bool).
Variables (resubmit_immediate : bool) (mail_user : option string).
Variables (mail_type : option (list string)) (batch_args : option string).
Variable dry_run : bool.

(** The inner loop (lines 461-490): one round over [jobs].  [prev_job]
    does not change inside a round. *)
Fixpoint submit_round (jobs : list (string * option string)) (prev_job : option string)
    (v : loop_vars) : M ext loop_vars :=
  match jobs with
  | [] => ret v
  | (job, dependency) :: rest =>
      let dep_jobs := dep_jobs_of user_prereq dependency (depid v) prev_job in
      do! _ := emit (Debug_depends job dep_jobs) in
      do! result := _submit_single_job self job (Some dep_jobs) allow_fail no_batch
                      skip_pnl mail_user mail_type batch_args dry_run
                      resubmit_immediate in
      do! id :=
        if dry_run then
          match Py.index job alljobs with
          | Some i => ret (Some (Py.str_of_nat i))
          | None => raise ValueError
          end
        else ret result in
      let v' := {| depid := <[job := id]> (depid v);
                   jobcmds := jobcmds v ++ [(job, result)];
                   batch_job_id := Some id |} in
      if is_cobalt self then ret v'
      else submit_round rest prev_job v'
  end.

(** The outer loop (lines 460-491): [prev_job] is set at the end of each
    round, from the last identifier assigned so far. *)
Fixpoint submit_rounds (num_submit : nat) (jobs : list (string * option string))
    (prev_job : option string) (v : loop_vars) : M ext loop_vars :=
  match num_submit with
  | O => ret v
  | S more =>
      do! v' := submit_round jobs prev_job v in
      match batch_job_id v' with
      | None => raise UnboundLocalError
      | Some id => submit_rounds more jobs id v'
      end
  end.
End Rounds.

Definition fresh_vars : loop_vars :=
  {| depid := ∅; jobcmds := []; batch_job_id := None |}.

(** [submit_jobs] (line 416) *)
Definition submit_jobs (self : EnvBatch) (no_batch : bool) (job user_prereq : option string)
    (skip_pnl allow_fail resubmit_immediate : bool) (mail_user : option string)
    (mail_type : option (list string)) (batch_args : option string) (dry_run : bool)
    : M ext submitted :=
  do! jobs := eligible_jobs self job dry_run in
  do! num_submit := plan_num_submit resubmit_immediate in
  do! v := submit_rounds self get_jobs no_batch user_prereq skip_pnl allow_fail
             resubmit_immediate mail_user mail_type batch_args dry_run
             (Z.to_nat num_submit) jobs None fresh_vars in
  if dry_run then ret (JobCmds (jobcmds v)) else ret (DepIds (depid v)).

(** [cancel_job] (line 812): a Python function that falls off its end
    returns [None]. *)
Definition cancel_job (jobid : string) : M ext (option bool) :=
  do! batch_cancel := lift (get_optional_child "batch_cancel" None None) in
  match batch_cancel with
  | None =>
      do! _ := emit Warning_cancel_unsupported in
      ret (Some false)
  | Some cancel_node =>
      let cmd := text cancel_node +:+ " " +:+ jobid in
      do! answer := act (run_cmd cmd) in
      let '(status, out, err) := answer in
      if negb (status =? 0)%Z then
        do! _ := emit (Warning_cancel_failed cmd (out +:+ newline +:+ err)) in
        ret None
      else ret (Some true)
  end.

(** The condition of line 564 under which a job is run in process: the
    configured batch system is absent or [none], or the caller asked for
    no batch. *)
Definition no_batch_mode (no_batch : bool) : Prop :=
  exists batch_system,
    get_value "BATCH_SYSTEM" None true None = Ok batch_system
    /\ (batch_system = None \/ batch_system = Some "none" \/ no_batch = true).

(** The keyword arguments of the in-process call (lines 568-570). *)
Definition in_process_kwargs (job : string) (skip_pnl resubmit_immediate : bool)
    : list (string * bool) :=
  map (fun kv => (fst kv, fst (snd kv)))
      (_build_run_args job true
         [("skip_pnl", skip_pnl);
          ("set_continue_run", resubmit_immediate);
          ("submit_resubmits", negb resubmit_immediate)]).

End Submission.

(** ** Vocabulary of the statements *)

(** The [dep_jobs] lists the planner reported (line 475), in order: one
    entry per call of [_submit_single_job] made by [submit_jobs]. *)
Definition dep_events (evs : list event) : list (string * list string) :=
  flat_map (fun e => match e with
                     | Debug_depends job dep_jobs => [(job, dep_jobs)]
                     | _ => []
                     end) evs.

(** A computation only appends to the log, and only events in [P]. *)
Definition emits_only {ext A : Type} (P : event -> Prop) (m : M ext A) : Prop :=
  forall st, exists evs, log (snd (m st)) = log st ++ evs /\ Forall P evs.

(** The events of [_submit_single_job]. *)
Definition of_single_job (e : event) : Prop :=
  match e with
  | Warning_submit _ | Info_starting _ | Debug_dependencies _
  | Warning_no_allow_string | Info_submitting _ | Info_submitted _ => True
  | _ => False
  end.

(** The events of a job run in process. *)
Definition of_in_process_job (e : event) : Prop :=
  match e with
  | Warning_submit _ | Info_starting _ => True
  | _ => False
  end.

(** [[x]] when [x] is given, else the empty list. *)
Definition given (v : option string) : list string :=
  match v with Some p => [p] | None => [] end.

(** What one round reports when its jobs are given the identifiers [ids]:
    the dependency list of each job in order, and the map of identifiers
    at the end of the round. *)
Fixpoint round_plan (user_prereq : option string) (jobs : list (string * option string))
    (ids : list (option string)) (prev_job : option string)
    (dm : gmap string (option string))
    : list (string * list string) * gmap string (option string) :=
  match jobs, ids with
  | (job, dependency) :: rest, id :: ids' =>
      let (plan, dm') := round_plan user_prereq rest ids' prev_job (<[job := id]> dm) in
      ((job, dep_jobs_of user_prereq dependency dm prev_job) :: plan, dm')
  | _, _ => ([], dm)
  end.

(** What the log of a submission without batch system may hold: every
    job is reported with the external prerequisite as its only
    dependency and is mapped to [None]; no dependency clause is built. *)
Definition no_batch_event (user_prereq : option string)
    (dm : gmap string (option string)) (e : event) : Prop :=
  match e with
  | Debug_depends job dep_jobs => dep_jobs = given user_prereq /\ dm !! job = Some None
  | Debug_dependencies _ | Warning_no_allow_string
  | Info_submitting _ | Info_submitted _ => False
  | _ => True
  end.

(** The template of the dependency clause: [depend_allow_string] when a
    failed dependency is allowed and that string is configured, else
    [depend_string]. *)
Definition chosen_template (allow_fail : bool) (allowed plain : option string)
    : option string :=
  if allow_fail then match allowed with Some _ => allowed | None => plain end
  else plain.

(** The events of the first loop of [submit_jobs]. *)
Definition of_eligibility (e : event) : Prop :=
  match e with
  | Debug_index _ _ _ => True
  | _ => False
  end.

(** A computation that leaves the world as it is. *)
Definition keeps_world {ext A : Type} (m : M ext A) : Prop :=
  forall st, the_world (snd (m st)) = the_world st.

(** The identifier assigned last, after the jobs of a round got [ids]. *)
Definition last_assigned (ids : list (option string)) (before : option (option string))
    : option (option string) :=
  fold_left (fun _ id => Some id) ids before.

(** Every identifier of the map is [None]. *)
Definition all_none (dm : gmap string (option string)) : Prop :=
  forall job id, dm !! job = Some id -> id = None.

(** ** JobDefaultsPlanner and the batch system type *)

Section JobDefaults.
Context {node : Type} {X : GenericXML node} {U : Utils}.

(** [self._default_walltime], set once in [__init__] (line 24). *)
Definition _default_walltime : string := "00:20:00".

(** [get_batch_system_type] (line 668): the object after the call; the
    value returned is its [_batchtype]. *)
Definition get_batch_system_type (self : EnvBatch) : EnvBatch :=
  fold_left (fun (s : EnvBatch) (bsnode : node) =>
               match get bsnode "type" with
               | Some type_ => {| _batchtype := Some type_ |}
               | None => s
               end)
            (get_children (Some "batch_system") None None) self.

(** [set_batch_system_type] (line 676) *)
Definition set_batch_system_type (self : EnvBatch) (batchtype : option string) : EnvBatch :=
  {| _batchtype := batchtype |}.

(** The test of [set_value] on a queue name (lines 50-52). *)
Definition job_queue_guard (value : string) (ignore_type : bool) : result unit :=
  try! names := _get_all_queue_names in
  expect (existsb (String.eqb value) names || ignore_type)
    "Unknown Job Queue specified use --force to set".

(** [specs[3]]: subscripting [None] raises [TypeError]. *)
Definition walltimemax_field (specs : option queue_specs) : result (option string) :=
  match specs with
  | Some sp => Ok (walltimemax sp)
  | None => Err TypeError
  end.

(** Lines 241-272 of [set_job_defaults]: the queue of one job and the
    walltime as far as it is known; [test] is the truth of
    [case.get_value("TEST")].  The warnings are not recorded. *)
Definition choose_queue (force_queue walltime : option string)
    (node_count task_count : Z) (job : string) (test : bool)
    : result (string * option string) :=
  if truthy force_queue then
    let forced := str_of_opt force_queue in
    try! meets := queue_meets_spec forced node_count task_count walltime (Some job) in
    try! walltime :=
      if meets then Ok walltime
      else
        try! without := queue_meets_spec forced node_count task_count None (Some job) in
        if without then
          if test
          then try! specs := get_queue_specs forced in walltimemax_field specs
          else Ok walltime
        else Ok walltime in
    Ok (forced, walltime)
  else
    try! queue := select_best_queue node_count task_count walltime (Some job) in
    try! retried :=
      match queue, walltime with
      | None, Some _ =>
          try! queue := select_best_queue node_count task_count None (Some job) in
          match queue with
          | Some found =>
              try! specs := get_queue_specs found in
              try! new_walltime := walltimemax_field specs in
              match new_walltime with
              | None => Err (CIMEError "Should never make it here")
              | Some _ => Ok (queue, if test then new_walltime else walltime)
              end
          | None => Ok (queue, walltime)
          end
      | _, _ => Ok (queue, walltime)
      end in
    match fst retried with
    | Some found => Ok (found, snd retried)
    | None =>
        try! default_queue_node := get_default_queue in
        let queue := text default_queue_node in
        try! specs := get_queue_specs queue in
        try! walltime := walltimemax_field specs in
        Ok (queue, walltime)
    end.

(** Lines 241-286 of [set_job_defaults]: the queue and the walltime that
    are stored for the job, and the [ignore_type] flag the queue is stored
    with. *)
Definition job_defaults (force_queue walltime : option string)
    (node_count task_count : Z) (job : string) (test : bool)
    : result (string * string * bool) :=
  try! chosen := choose_queue force_queue walltime node_count task_count job test in
  let queue := fst chosen in
  try! specs := get_queue_specs queue in
  try! walltime :=
    match snd chosen with
    | Some w => Ok w
    | None =>
        try! from_queue :=
          match specs with
          | None => try! d := get_default_queue in Ok (get d "walltimemax")
          | Some sp => Ok (walltimemax sp)
          end in
        Ok (match from_queue with Some w => w | None => _default_walltime end)
    end in
  Ok (queue, walltime, negb (is_Some_b specs)).

End JobDefaults.

(** The last identifier of a round as the next round sees it. *)
Definition ends_with (p : string) (entry : string * list string) : Prop :=
  last (snd entry) = Some p.

(** ** A concrete file, scheduler and case

    An element tree with the accessors of the base classes as they behave
    on it, a scheduler that hands out consecutive job numbers and a case
    whose jobs run without failing.  They serve as the concrete inputs on
    which the general statements are exercised. *)

Module Fixture.

#[warnings="-register-all"]
Inductive element : Type :=
| Element (tag : string) (attrib : attributes) (content : string) (children : list element).

Definition tag_of (e : element) : string :=
  match e with Element t _ _ _ => t end.
Definition attrib_of (e : element) : attributes :=
  match e with Element _ a _ _ => a end.
Definition content_of (e : element) : string :=
  match e with Element _ _ c _ => c end.
Definition children_of (e : element) : list element :=
  match e with Element _ _ _ cs => cs end.

Definition has_attributes (wanted : option attributes) (e : element) : bool :=
  match wanted with
  | None => true
  | Some ws =>
      forallb (fun kv : string * string =>
                 match assoc (fst kv) (attrib_of e) with
                 | Some v => String.eqb v (snd kv)
                 | None => false
                 end) ws
  end.

Definition has_tag (name : option string) (e : element) : bool :=
  match name with
  | None => true
  | Some n => String.eqb (tag_of e) n
  end.

Definition children_matching (doc : element) (name : option string)
    (attrs : option attributes) (root : option element) : list element :=
  filter (fun e => has_tag name e && has_attributes attrs e)
         (children_of (match root with Some r => r | None => doc end)).

Definition optional_child (doc : element) (name : string)
    (attrs : option attributes) (root : option element) : result (option element) :=
  match children_matching doc (Some name) attrs root with
  | [] => Ok None
  | [c] => Ok (Some c)
  | _ :: _ :: _ => Err (CIMEError ("Multiple matches for name '" +:+ name +:+ "'"))
  end.

(** Value of entry [item] in the group [subgroup] (in any group without
    a subgroup). *)
Definition entry_value (doc : element) (item : string) (subgroup : option string)
    : option string :=
  let groups :=
    children_matching doc (Some "group")
      (match subgroup with Some g => Some [("id", g)] | None => None end) None in
  match flat_map (fun g => children_matching doc (Some "entry") (Some [("id", item)]) (Some g))
                 groups with
  | e :: _ => assoc "value" (attrib_of e)
  | [] => None
  end.

Definition xml (doc : element) : GenericXML element := {|
  xml_get_children := children_matching doc;
  get_optional_child := optional_child doc;
  text := content_of;
  get := fun e a => assoc a (attrib_of e);
  get_resolved_value := fun v => Ok v;
  envbase_get_value := fun item _ _ subgroup => Ok (entry_value doc item subgroup)
|}.

(** Modelled from the spec: [convert_to_seconds] of [CIME.utils] is not in
    this file.  Section 4.1 has walltimes "converted to seconds for
    comparison" and section 8 writes them as "01:00:00": up to three
    decimal fields separated by colons, the last one the seconds, each
    field before it worth sixty of the next. *)
Definition convert_to_seconds_model (time_str : string) : result Z :=
  match map Py.int (Py.split_on ":"%char time_str) with
  | [Some s] => Ok s
  | [Some m; Some s] => Ok (60 * m + s)%Z
  | [Some h; Some m; Some s] => Ok (3600 * h + 60 * m + s)%Z
  | [_] | [_; _] | [_; _; _] => Err ValueError
  | _ => Err (CIMEError ("Unusual time string: '" +:+ time_str +:+ "'"))
  end.

Definition utils : Utils := {|
  convert_to_seconds := convert_to_seconds_model;
  get_batch_script_for_job := fun job => "." +:+ job;
  cime_config := fun _ _ => None;
  re_search_group1 := fun _ output => Ok (Some (Some (Py.strip output)));
  eval_truth := fun expr =>
    if String.eqb expr "True" then Ok true
    else if String.eqb expr "False" then Ok false
    else Err (Raised "eval")
|}.

(** The outside is the number of jobs the scheduler has accepted; the
    cancel command exits with [cancel_status]. *)
Definition runtime (cancel_status : Z) : Runtime nat := {|
  run_cmd := fun _ w => ((cancel_status, EmptyString, EmptyString), w);
  run_cmd_no_fail := fun _ w =>
    (Ok (Py.str_of_nat (100 + outside w)),
     {| RESUBMIT := RESUBMIT w; outside := S (outside w) |});
  case_get_resolved_value := fun v _ => Ok v;
  case_call := fun _ _ w => (Ok tt, w);
  get_submit_args := fun _ _ _ => Ok "-q batch"
|}.

Definition queue (name : string) (attrs : attributes) : element :=
  Element "queue" attrs name [].

Definition setting (name value : string) : element :=
  Element name [] value [].

Definition group (id : string) (entries : list (string * string)) : element :=
  Element "group" [("id", id)]
    EmptyString
    (map (fun kv : string * string =>
            Element "entry" [("id", fst kv); ("value", snd kv)] EmptyString [])
         entries).

Definition file (items : list element) : element :=
  Element "file" [] EmptyString items.

(** The queues of a machine; [regular] is the default, [broken] sets two
    bounds that exclude each other. *)
Definition catalog : list element :=
  [queue "debug" [("nodemax", "2"); ("walltimemax", "00:30:00"); ("strict", "true")];
   queue "regular" [("default", "true"); ("nodemax", "100");
                    ("walltimemax", "01:00:00"); ("strict", "true")];
   queue "share" [("jobname", "case.st_archive"); ("nodemax", "1")];
   queue "long" [("nodemin", "4"); ("walltimemax", "01:00:00")];
   queue "broken" [("nodemin", "1"); ("jobmin", "1")]].

Definition machine : element :=
  file [Element "batch_system" [("type", "pbs")] EmptyString
          [Element "queues" [] EmptyString catalog]].

Definition initial (resubmit : Z) : state nat :=
  {| the_world := {| RESUBMIT := resubmit; outside := O |}; log := [] |}.

(** A workflow of three jobs on a machine with the batch system
    [batch_system]: the short-term archiver declares the run as its
    dependency, the long-term archiver declares nothing.  The scheduler
    has no [depend_allow_string]; its cancel command is [qdel]. *)
Definition workflow (batch_system : string) : element :=
  file [Element "batch_system" [("type", batch_system)] EmptyString
          [setting "batch_submit" "qsub";
           setting "depend_string" "-W depend=afterok:jobid";
           setting "depend_separator" ":";
           setting "jobid_pattern" "(\d+)"];
        setting "batch_cancel" "qdel";
        group "config_batch" [("BATCH_SYSTEM", batch_system)];
        group "case.run" [("template", "template.case.run")];
        group "case.st_archive" [("dependency", "case.run")];
        group "case.lt_archive" [("template", "template.lt_archive")]].

Definition pbs : EnvBatch := {| _batchtype := Some "pbs" |}.

End Fixture.

(** More concrete inputs, for the properties beyond the queue and
    dependency rules. *)

Module Bench.

Definition cobalt : EnvBatch := {| _batchtype := Some "cobalt" |}.

(** A machine whose batch system declares no queues. *)
Definition bare_machine : Fixture.element :=
  Fixture.file [Fixture.Element "batch_system" [("type", "pbs")] EmptyString []].

(** A machine all of whose queues enforce their walltime. *)
Definition strict_machine : Fixture.element :=
  Fixture.file
    [Fixture.Element "batch_system" [("type", "pbs")] EmptyString
       [Fixture.Element "queues" [] EmptyString
          [Fixture.queue "debug"
             [("nodemax", "2"); ("walltimemax", "00:30:00"); ("strict", "true")];
           Fixture.queue "regular"
             [("default", "true"); ("nodemax", "100");
              ("walltimemax", "01:00:00"); ("strict", "true")]]]].

(** A workflow whose archiver has a prerequisite that cannot be
    evaluated. *)
Definition gated_workflow : Fixture.element :=
  Fixture.file
    [Fixture.Element "batch_system" [("type", "pbs")] EmptyString
       [Fixture.setting "batch_submit" "qsub"];
     Fixture.group "config_batch" [("BATCH_SYSTEM", "pbs")];
     Fixture.group "case.run" [("prereq", "$BUILD_COMPLETE")];
     Fixture.group "case.st_archive" [("prereq", "$DOUT_S"); ("dependency", "case.run")]].

(** A workflow whose only job has a false prerequisite. *)
Definition idle_workflow : Fixture.element :=
  Fixture.file
    [Fixture.Element "batch_system" [("type", "pbs")] EmptyString
       [Fixture.setting "batch_submit" "qsub"];
     Fixture.group "config_batch" [("BATCH_SYSTEM", "pbs")];
     Fixture.group "case.run" [("prereq", "False")]].

(** A scheduler that knows three of the five mail types. *)
Definition mail_machine : Fixture.element :=
  Fixture.file
    [Fixture.Element "batch_system" [("type", "pbs")] EmptyString
       [Fixture.setting "batch_mail_type_flag" "-m";
        Fixture.setting "batch_mail_type" "n, a, b"]].

End Bench.

(** * Properties *)

(** ** Results *)

Lemma rbind_Ok {A B : Type} (r : result A) (k : A -> result B) (b : B) :
  rbind r k = Ok b <-> exists a, r = Ok a /\ k a = Ok b.
Proof.
  destruct r as [a|e]; simpl; split.
  - intros Hk. exists a. split; [reflexivity | exact Hk].
  - intros (a' & Ha & Hk). inversion Ha; subst. exact Hk.
  - discriminate.
  - intros (a' & Ha & _). discriminate.
Qed.

Lemma rbind_Err_first {A B : Type} (r : result A) (k : A -> result B) (e : exn) :
  r = Err e -> rbind r k = Err e.
Proof. intros ->. reflexivity. Qed.

(** ** QueueResolver *)

Section QueueResolverFacts.
Context {node : Type} {X : GenericXML node} {U : Utils}.

Lemma find_queue_specs_absent (nodes : list node) (queue : string) :
  Forall (fun n => text n <> queue) nodes ->
  find_queue_specs nodes queue = Ok None.
Proof.
  induction 1 as [|n rest Hn _ IH]; simpl.
  - reflexivity.
  - apply String.eqb_neq in Hn. rewrite Hn. exact IH.
Qed.

Lemma find_queue_specs_first (before after : list node) (n : node) (queue : string) :
  Forall (fun m => text m <> queue) before ->
  text n = queue ->
  find_queue_specs (before ++ n :: after) queue
  = rbind (read_queue_specs n) (fun specs => Ok (Some specs)).
Proof.
  intros Hbefore Hn.
  induction Hbefore as [|m rest Hm _ IH]; simpl.
  - apply String.eqb_eq in Hn. rewrite Hn. reflexivity.
  - apply String.eqb_neq in Hm. rewrite Hm. exact IH.
Qed.

Lemma int_or_none_Some (s : string) :
  int_or_none (Some s) = Err ValueError
  \/ exists z, int_or_none (Some s) = Ok (Some z).
Proof.
  unfold int_or_none. destruct (Py.int s) as [z|].
  - right. exists z. reflexivity.
  - left. reflexivity.
Qed.

Lemma read_queue_specs_exclusive (n : node) :
  both_set n "nodemin" "jobmin" \/ both_set n "nodemax" "jobmax" ->
  exists e, read_queue_specs n = Err e /\ exclusive_bounds_error e.
Proof.
  unfold both_set, read_queue_specs, exclusive_bounds_error.
  intros Hboth.
  destruct (get n "nodemin") as [a|] eqn:Ha;
    [destruct (int_or_none_Some a) as [-> | [za ->]] | ]; simpl;
    try (eexists; split; [reflexivity | tauto]);
  (destruct (get n "nodemax") as [b|] eqn:Hb;
    [destruct (int_or_none_Some b) as [-> | [zb ->]] | ]; simpl;
    try (eexists; split; [reflexivity | tauto]));
  (destruct (get n "jobmin") as [c|] eqn:Hc;
    [destruct (int_or_none_Some c) as [-> | [zc ->]] | ]; simpl;
    try (eexists; split; [reflexivity | tauto]));
  (destruct (get n "jobmax") as [d|] eqn:Hd;
    [destruct (int_or_none_Some d) as [-> | [zd ->]] | ]; simpl;
    try (eexists; split; [reflexivity | tauto]));
  exfalso; destruct Hboth as [[H1 H2] | [H1 H2]];
    (inversion H1; discriminate) || (inversion H2; discriminate).
Qed.

(** The scan of [select_best_queue], for any list of names. *)
Lemma first_meeting_Some (qnames : list string) (num_nodes num_tasks : Z)
    (walltime job : option string) (q : string) :
  first_meeting qnames num_nodes num_tasks walltime job = Ok (Some q) <->
  exists before after,
    qnames = before ++ q :: after
    /\ Forall (fun p => queue_meets_spec p num_nodes num_tasks walltime job = Ok false) before
    /\ queue_meets_spec q num_nodes num_tasks walltime job = Ok true.
Proof.
  induction qnames as [|p rest IH]; simpl.
  - split; [discriminate |].
    intros (before & after & Heq & _). destruct before; discriminate.
  - destruct (queue_meets_spec p num_nodes num_tasks walltime job) as [[|]|e] eqn:Hp; simpl.
    + split.
      * intros Hq. inversion Hq; subst. exists [], rest. auto.
      * intros (before & after & Heq & Hbefore & Hq).
        destruct before as [|b before]; simpl in Heq; inversion Heq; subst.
        -- reflexivity.
        -- inversion Hbefore; subst. congruence.
    + rewrite IH. split.
      * intros (before & after & -> & Hbefore & Hq).
        exists (p :: before), after. auto.
      * intros (before & after & Heq & Hbefore & Hq).
        destruct before as [|b before]; simpl in Heq; inversion Heq; subst.
        -- congruence.
        -- inversion Hbefore; subst. eauto.
    + split; [discriminate |].
      intros (before & after & Heq & Hbefore & Hq).
      destruct before as [|b before]; simpl in Heq; inversion Heq; subst.
      * congruence.
      * inversion Hbefore; subst. congruence.
Qed.

Lemma first_meeting_None (qnames : list string) (num_nodes num_tasks : Z)
    (walltime job : option string) :
  first_meeting qnames num_nodes num_tasks walltime job = Ok None <->
  Forall (fun p => queue_meets_spec p num_nodes num_tasks walltime job = Ok false) qnames.
Proof.
  induction qnames as [|p rest IH]; simpl.
  - split; auto.
  - destruct (queue_meets_spec p num_nodes num_tasks walltime job) as [[|]|e] eqn:Hp; simpl.
    + split; [discriminate |]. intros H. inversion H; subst. congruence.
    + rewrite IH. split.
      * intros H. constructor; assumption.
      * intros H. inversion H; assumption.
    + split; [discriminate |]. intros H. inversion H; subst. congruence.
Qed.

(** C4: a queue the catalog does not describe meets every request. *)
Theorem queue_meets_spec_unknown_queue (queue : string) (all_queues : list node)
    (num_nodes num_tasks : Z) (walltime job : option string) :
  get_all_queues = Ok all_queues ->
  Forall (fun n => text n <> queue) all_queues ->
  queue_meets_spec queue num_nodes num_tasks walltime job = Ok true.
Proof.
  intros Hall Habsent.
  unfold queue_meets_spec, get_queue_specs.
  rewrite Hall. simpl.
  rewrite (find_queue_specs_absent Habsent). reflexivity.
Qed.

(** C5: when a job name is given and the specification of the queue
    declares one, the answer is the comparison of the two names, whatever
    the node count, the task count and the walltime are. *)
Theorem queue_meets_spec_jobname (queue : string) (specs : queue_specs)
    (declared given : string) (num_nodes num_tasks : Z) (walltime : option string) :
  get_queue_specs queue = Ok (Some specs) ->
  jobname specs = Some declared ->
  queue_meets_spec queue num_nodes num_tasks walltime (Some given)
  = Ok (String.eqb declared given)
  /\ (declared = given ->
      queue_meets_spec queue num_nodes num_tasks walltime (Some given) = Ok true)
  /\ (declared <> given ->
      queue_meets_spec queue num_nodes num_tasks walltime (Some given) = Ok false).
Proof.
  intros Hspecs Hname.
  assert (Hmain : queue_meets_spec queue num_nodes num_tasks walltime (Some given)
                  = Ok (String.eqb declared given)).
  { unfold queue_meets_spec. rewrite Hspecs. simpl. rewrite Hname. reflexivity. }
  split; [exact Hmain |]. rewrite Hmain. split.
  - intros ->. rewrite String.eqb_refl. reflexivity.
  - intros Hne. apply String.eqb_neq in Hne. rewrite Hne. reflexivity.
Qed.

(** C6: [select_best_queue] scans the names with the default queue in
    front; it returns the first name that meets the request, nothing when
    every name fails it, and the default queue as soon as that one meets
    the request. *)
Theorem select_best_queue_default_first (all_queues : list node) (default : node)
    (num_nodes num_tasks : Z) (walltime job : option string) :
  get_all_queues = Ok all_queues ->
  get_default_queue = Ok default ->
  let meets := fun q => queue_meets_spec q num_nodes num_tasks walltime job in
  let qnames := text default :: map text all_queues in
  _get_all_queue_names = Ok qnames
  /\ (forall q,
        select_best_queue num_nodes num_tasks walltime job = Ok (Some q) <->
        exists before after,
          qnames = before ++ q :: after
          /\ Forall (fun p => meets p = Ok false) before
          /\ meets q = Ok true)
  /\ (select_best_queue num_nodes num_tasks walltime job = Ok None <->
      Forall (fun p => meets p = Ok false) qnames)
  /\ (meets (text default) = Ok true ->
      select_best_queue num_nodes num_tasks walltime job = Ok (Some (text default))).
Proof.
  intros Hall Hdefault meets qnames.
  assert (Hnames : _get_all_queue_names = Ok qnames).
  { unfold _get_all_queue_names. rewrite Hall, Hdefault. reflexivity. }
  assert (Hselect : select_best_queue num_nodes num_tasks walltime job
                    = first_meeting qnames num_nodes num_tasks walltime job).
  { unfold select_best_queue. rewrite Hnames. reflexivity. }
  split; [exact Hnames |]. rewrite Hselect.
  split; [intros q; apply first_meeting_Some |].
  split; [apply first_meeting_None |].
  intros Hmeets. subst qnames. simpl. fold (meets (text default)).
  rewrite Hmeets. reflexivity.
Qed.

(** C7: a queue element that sets both [nodemin] and [jobmin], or both
    [nodemax] and [jobmax], never yields a specification: reading it
    raises, and so does every request made of that queue. *)
Theorem get_queue_specs_exclusive_bounds (queue : string) (before after : list node)
    (n : node) :
  get_all_queues = Ok (before ++ n :: after) ->
  Forall (fun m => text m <> queue) before ->
  text n = queue ->
  both_set n "nodemin" "jobmin" \/ both_set n "nodemax" "jobmax" ->
  exists e,
    exclusive_bounds_error e
    /\ read_queue_specs n = Err e
    /\ get_queue_specs queue = Err e
    /\ forall num_nodes num_tasks walltime job,
         queue_meets_spec queue num_nodes num_tasks walltime job = Err e.
Proof.
  intros Hall Hbefore Hn Hboth.
  destruct (read_queue_specs_exclusive Hboth) as (e & Hread & He).
  assert (Hspecs : get_queue_specs queue = Err e).
  { unfold get_queue_specs. rewrite Hall. simpl.
    rewrite find_queue_specs_first by assumption. rewrite Hread. reflexivity. }
  exists e. repeat split; try assumption.
  intros. unfold queue_meets_spec. rewrite Hspecs. reflexivity.
Qed.

End QueueResolverFacts.

Section WalltimeFacts.
Context {node : Type} {X : GenericXML node}.

(** C9: for a request that the queue admits when no walltime is asked
    for, and to which the job-name rule does not apply, a specification
    with [walltimemax] 01:00:00 accepts the walltime 01:00:00; it rejects
    01:00:01 exactly when it is strict; and a specification that is not
    strict accepts every walltime. *)
Theorem queue_meets_spec_walltime (U : Utils) (queue : string) (specs : queue_specs)
    (num_nodes num_tasks : Z) (job : option string) :
  get_queue_specs queue = Ok (Some specs) ->
  walltimemax specs = Some "01:00:00" ->
  job = None \/ jobname specs = None ->
  queue_meets_spec (U := U) queue num_nodes num_tasks None job = Ok true ->
  let meets := queue_meets_spec (U := Fixture.utils) queue num_nodes num_tasks in
  meets (Some "01:00:00") job = Ok true
  /\ meets (Some "01:00:01") job = Ok (negb (strict specs))
  /\ (strict specs = false ->
      forall walltime,
        queue_meets_spec (U := U) queue num_nodes num_tasks walltime job = Ok true).
Proof.
  intros Hspecs Hmax Hrule Hadmits meets. subst meets.
  unfold queue_meets_spec in *. rewrite Hspecs in *. simpl in *.
  rewrite Hmax in *.
  assert (Hbounds :
            under num_nodes (nodemin specs) || over num_nodes (nodemax specs)
            || under num_tasks (jobmin specs) || over num_tasks (jobmax specs) = false).
  { destruct job, (jobname specs); destruct Hrule; try discriminate;
      destruct (under num_nodes (nodemin specs) || over num_nodes (nodemax specs)
                || under num_tasks (jobmin specs) || over num_tasks (jobmax specs));
      congruence. }
  destruct job as [j|], (jobname specs) as [jn|]; destruct Hrule; try discriminate;
    rewrite Hbounds; (split; [| split]);
    try (destruct (strict specs); reflexivity);
    intros ->; intros [w|]; reflexivity.
Qed.

End WalltimeFacts.

(** ** Computations on the state *)

Section MonadFacts.
Context {ext : Type}.

Lemma emits_ret {A : Type} (P : event -> Prop) (a : A) :
  emits_only P (ret (ext := ext) a).
Proof. intros st. exists []. simpl. rewrite app_nil_r. auto. Qed.

Lemma emits_raise {A : Type} (P : event -> Prop) (e : exn) :
  emits_only P (raise (ext := ext) (A := A) e).
Proof. intros st. exists []. simpl. rewrite app_nil_r. auto. Qed.

Lemma emits_lift {A : Type} (P : event -> Prop) (r : result A) :
  emits_only P (lift (ext := ext) r).
Proof. intros st. exists []. simpl. rewrite app_nil_r. auto. Qed.

Lemma emits_ask {A : Type} (P : event -> Prop) (f : world ext -> result A) :
  emits_only P (ask f).
Proof. intros st. exists []. simpl. rewrite app_nil_r. auto. Qed.

Lemma emits_act {A : Type} (P : event -> Prop) (f : world ext -> A * world ext) :
  emits_only P (act f).
Proof.
  intros st. exists []. unfold act. destruct (f (the_world st)). simpl.
  rewrite app_nil_r. auto.
Qed.

Lemma emits_act_or_raise {A : Type} (P : event -> Prop)
    (f : world ext -> result A * world ext) :
  emits_only P (act_or_raise f).
Proof.
  intros st. exists []. unfold act_or_raise. destruct (f (the_world st)). simpl.
  rewrite app_nil_r. auto.
Qed.

Lemma emits_emit (P : event -> Prop) (e : event) :
  P e -> emits_only P (emit (ext := ext) e).
Proof. intros He st. exists [e]. simpl. auto. Qed.

Lemma emits_bind {A B : Type} (P : event -> Prop) (m : M ext A) (k : A -> M ext B) :
  emits_only P m -> (forall a, emits_only P (k a)) -> emits_only P (bind m k).
Proof.
  intros Hm Hk st. unfold bind.
  destruct (Hm st) as (evs1 & Hlog1 & HP1).
  destruct (m st) as [[a|e] st1]; simpl in *.
  - destruct (Hk a st1) as (evs2 & Hlog2 & HP2).
    exists (evs1 ++ evs2). rewrite Hlog2, Hlog1, app_assoc.
    split; [reflexivity | apply Forall_app; auto].
  - exists evs1. auto.
Qed.

Lemma emits_weaken {A : Type} (P Q : event -> Prop) (m : M ext A) :
  (forall e, P e -> Q e) -> emits_only P m -> emits_only Q m.
Proof.
  intros HPQ Hm st. destruct (Hm st) as (evs & Hlog & HP).
  exists evs. split; [exact Hlog |].
  eapply Forall_impl; eauto.
Qed.

(** Running [bind]: the first computation succeeded. *)
Lemma bind_Ok {A B : Type} (m : M ext A) (k : A -> M ext B) (st st' : state ext) (b : B) :
  bind m k st = (Ok b, st') ->
  exists a st1, m st = (Ok a, st1) /\ k a st1 = (Ok b, st').
Proof.
  unfold bind. destruct (m st) as [[a|e] st1]; intros H.
  - exists a, st1. auto.
  - discriminate.
Qed.

Lemma dep_events_app (evs1 evs2 : list event) :
  dep_events (evs1 ++ evs2) = dep_events evs1 ++ dep_events evs2.
Proof. unfold dep_events. apply flat_map_app. Qed.

Lemma dep_events_quiet (evs : list event) :
  Forall of_single_job evs -> dep_events evs = [].
Proof.
  induction 1 as [|e evs He _ IH]; simpl; [reflexivity |].
  destruct e; simpl in He; try contradiction; exact IH.
Qed.

End MonadFacts.

Ltac emits :=
  repeat first
    [ apply emits_ret | apply emits_raise | apply emits_lift | apply emits_ask
    | apply emits_act | apply emits_act_or_raise
    | apply emits_emit; exact I
    | apply emits_bind; [| intro]
    | match goal with
      | |- emits_only _ (match ?x with _ => _ end) => destruct x
      end
    | progress cbv zeta ].

(** ** Submission of one job *)

Section SingleJobFacts.
Context {node ext : Type} {X : GenericXML node} {U : Utils} {R : Runtime ext}.

Lemma dependency_clause_emits (allow_fail : bool) (d0 : string) (ds : list string)
    (submitargs : string) :
  emits_only of_single_job (dependency_clause (ext := ext) allow_fail d0 ds submitargs).
Proof. unfold dependency_clause. emits. Qed.

(** [_submit_single_job] never reports for the planner. *)
Lemma _submit_single_job_emits (self : EnvBatch) (job : string)
    (dep_jobs : option (list string)) (allow_fail no_batch skip_pnl : bool)
    (mail_user : option string) (mail_type : option (list string))
    (batch_args : option string) (dry_run resubmit_immediate : bool) :
  emits_only of_single_job
    (_submit_single_job self job dep_jobs allow_fail no_batch skip_pnl mail_user
       mail_type batch_args dry_run resubmit_immediate).
Proof.
  unfold _submit_single_job. emits; apply dependency_clause_emits.
Qed.

(** Without a batch system and outside a dry run the job is run in
    process and nothing is returned. *)
Lemma _submit_single_job_in_process (self : EnvBatch) (job : string)
    (dep_jobs : option (list string)) (allow_fail no_batch skip_pnl : bool)
    (mail_user : option string) (mail_type : option (list string))
    (batch_args : option string) (resubmit_immediate : bool) (st : state ext) :
  no_batch_mode no_batch ->
  _submit_single_job self job dep_jobs allow_fail no_batch skip_pnl mail_user
    mail_type batch_args false resubmit_immediate st
  = let (r, w) := case_call (Py.replace "." "_" job)
                    (in_process_kwargs job skip_pnl resubmit_immediate) (the_world st) in
    (match r with Ok _ => Ok None | Err e => Err e end,
     {| the_world := w; log := (log st ++ [Warning_submit job]) ++ [Info_starting job] |}).
Proof.
  intros (batch_system & Hbs & Hmode).
  unfold _submit_single_job, bind, lift, emit, act_or_raise, ret, in_process_kwargs.
  rewrite Hbs. cbv beta iota.
  assert (Hcond : match batch_system with
                  | Some name => String.eqb name "none"
                  | None => true
                  end || no_batch = true).
  { destruct Hmode as [-> | [-> | ->]]; [reflexivity | reflexivity |].
    apply orb_true_r. }
  rewrite Hcond. cbv beta iota. simpl the_world. simpl log.
  destruct (case_call _ _ _) as [[[]|e] w]; reflexivity.
Qed.

(** C2, as the code has it: with dependencies to wait for, the submission
    fails when the chosen template is missing, when the separator is
    missing, or when the template lacks the token jobid.  A missing
    [depend_allow_string] alone is not a failure: [depend_string] takes its
    place and the clause is built from it. *)
Theorem dependency_clause_failures (self : EnvBatch) (job d0 : string) (ds : list string)
    (allow_fail skip_pnl : bool) (mail_user : option string)
    (mail_type : option (list string)) (batch_args : option string)
    (dry_run resubmit_immediate : bool) (st : state ext)
    (batch_system submitargs : string) (flags allowed plain separator : option string) :
  get_value "BATCH_SYSTEM" None true None = Ok (Some batch_system) ->
  batch_system <> "none" ->
  get_submit_args self job (the_world st) = Ok submitargs ->
  get_value "BATCH_COMMAND_FLAGS" None true (Some job) = Ok flags ->
  get_value "depend_allow_string" None true None = Ok allowed ->
  get_value "depend_string" None true None = Ok plain ->
  get_value "depend_separator" None true None = Ok separator ->
  let template := chosen_template allow_fail allowed plain in
  let outcome :=
    fst (_submit_single_job self job (Some (d0 :: ds)) allow_fail false skip_pnl
           mail_user mail_type batch_args dry_run resubmit_immediate st) in
  (template = None ->
   outcome = Err (CIMEError "'depend_string' is not defined for this batch system"))
  /\ (forall t, template = Some t -> separator = None ->
       outcome = Err (CIMEError "depend_separator string not defined"))
  /\ (forall t sep, template = Some t -> separator = Some sep ->
       Py.contains "jobid" t = false ->
       outcome = Err (CIMEError "depend_string is missing jobid for prerequisite jobs"))
  /\ (forall t sep args (st' : state ext), template = Some t -> separator = Some sep ->
       Py.contains "jobid" t = true ->
       fst (dependency_clause allow_fail d0 ds args st')
       = Ok (args +:+ " "
             +:+ Py.replace "jobid"
                   (Py.strip (fold_left (fun acc dep_id => acc +:+ sep +:+ dep_id) ds d0))
                   t)).
Proof.
  intros Hbs Hnone Hargs Hflags Hallowed Hplain Hsep template outcome.
  subst template outcome.
  apply String.eqb_neq in Hnone.
  unfold _submit_single_job, dependency_clause, chosen_template,
    bind, lift, emit, ask, ret, raise.
  rewrite Hbs, Hnone, Hallowed, Hplain, Hsep. simpl.
  repeat split.
  - intros Htemplate.
    destruct dry_run, allow_fail, allowed; simpl in *; rewrite ?Hargs, ?Hflags; simpl;
      subst; try discriminate; reflexivity.
  - intros t Htemplate ->.
    destruct dry_run, allow_fail, allowed; simpl in *; rewrite ?Hargs, ?Hflags; simpl;
      subst; try discriminate; reflexivity.
  - intros t sep Htemplate -> Hno.
    destruct dry_run, allow_fail, allowed; simpl in *; rewrite ?Hargs, ?Hflags; simpl;
      subst; try discriminate; try (inversion Htemplate; subst); rewrite Hno; reflexivity.
  - intros t sep args st' Htemplate -> Hyes.
    destruct allow_fail, allowed; simpl in *;
      subst; try discriminate; try (inversion Htemplate; subst); rewrite Hyes; reflexivity.
Qed.

(** A cancel command that exits with a nonzero status makes [cancel_job]
    return [None]. *)
Lemma cancel_job_failed_command (jobid : string) (cancel_node : node) (st : state ext) :
  get_optional_child "batch_cancel" None None = Ok (Some cancel_node) ->
  fst (fst (fst (run_cmd (text cancel_node +:+ " " +:+ jobid) (the_world st)))) <> 0%Z ->
  fst (cancel_job jobid st) = Ok None.
Proof.
  intros Hnode Hstatus.
  unfold cancel_job, bind, lift, act, emit, ret. rewrite Hnode.
  destruct (run_cmd _ _) as [[[status out] err] w]; simpl in *.
  apply Z.eqb_neq in Hstatus. rewrite Hstatus. reflexivity.
Qed.

End SingleJobFacts.

(** ** The rounds of [submit_jobs] *)

Section PlannerFacts.
Context {node ext : Type} {X : GenericXML node} {U : Utils} {R : Runtime ext}.

Lemma keeps_world_bind {A B : Type} (m : M ext A) (k : A -> M ext B) :
  keeps_world m -> (forall a, keeps_world (k a)) -> keeps_world (bind m k).
Proof.
  intros Hm Hk st. unfold bind. specialize (Hm st).
  destruct (m st) as [[a|e] st1]; simpl in *.
  - rewrite (Hk a st1). exact Hm.
  - exact Hm.
Qed.

Lemma prereq_holds_state (dry_run : bool) (firstjob : option string) (job : string)
    (st : state ext) :
  snd (prereq_holds dry_run firstjob job st) = st.
Proof.
  unfold prereq_holds.
  repeat match goal with
         | |- context [match ?x with _ => _ end] => destruct x; simpl
         end; reflexivity.
Qed.

Lemma eligible_from_emits (self : EnvBatch) (dry_run : bool) (firstjob : option string)
    (startindex : nat) (remaining : list string) :
  forall index jobs,
    emits_only of_eligibility
      (eligible_from (ext := ext) self dry_run firstjob startindex index remaining jobs)
    /\ keeps_world
         (eligible_from (ext := ext) self dry_run firstjob startindex index remaining jobs).
Proof.
  induction remaining as [|job rest IH]; intros index jobs; simpl.
  - split; [apply emits_ret | intros st; reflexivity].
  - assert (Hprereq : emits_only of_eligibility (prereq_holds (ext := ext) dry_run firstjob job)
                      /\ keeps_world (prereq_holds (ext := ext) dry_run firstjob job)).
    { split; intros st.
      - exists []. rewrite prereq_holds_state, app_nil_r. auto.
      - rewrite prereq_holds_state. reflexivity. }
    destruct Hprereq as [Hemit Hkeep].
    split.
    + apply emits_bind; [apply emits_emit; exact I | intros _].
      destruct (index <? startindex)%nat; [apply IH |].
      apply emits_bind; [exact Hemit | intros prereq].
      apply emits_bind.
      * destruct prereq; emits.
      * intros jobs'. destruct (is_cobalt self); [apply emits_ret | apply IH].
    + apply keeps_world_bind; [intros st; reflexivity | intros _].
      destruct (index <? startindex)%nat; [apply IH |].
      apply keeps_world_bind; [exact Hkeep | intros prereq].
      apply keeps_world_bind.
      * destruct prereq; [| intros st; reflexivity].
        apply keeps_world_bind; intros; intros st; reflexivity.
      * intros jobs'. destruct (is_cobalt self); [intros st; reflexivity | apply IH].
Qed.

(** Choosing the jobs reads the case and the file and writes to the log
    only. *)
Lemma eligible_jobs_frame (self : EnvBatch) (job : option string) (dry_run : bool) :
  emits_only of_eligibility (eligible_jobs (ext := ext) self job dry_run)
  /\ keeps_world (eligible_jobs (ext := ext) self job dry_run).
Proof.
  unfold eligible_jobs. split.
  - apply emits_bind; [| intros; apply eligible_from_emits].
    destruct job as [j|]; [destruct (Py.index j get_jobs) |]; emits.
  - apply keeps_world_bind; [| intros; apply eligible_from_emits].
    destruct job as [j|]; [destruct (Py.index j get_jobs) |]; intros st; reflexivity.
Qed.

Lemma dep_jobs_of_first_round (user_prereq dependency : option string)
    (dm : gmap string (option string)) :
  dep_jobs_of user_prereq dependency dm None = given user_prereq ++ declared_ids dependency dm.
Proof. unfold dep_jobs_of, declared_ids, given. rewrite app_nil_r. reflexivity. Qed.

Lemma declared_ids_In (dependency : option string) (dm : gmap string (option string))
    (id : string) :
  In id (declared_ids dependency dm) <->
  exists d dep, dependency = Some d /\ In dep (Py.split_ws d) /\ dm !! dep = Some (Some id).
Proof.
  unfold declared_ids. rewrite in_flat_map. split.
  - intros (dep & Hdep & Hid). destruct dependency as [d|]; [| destruct Hdep].
    exists d, dep. repeat split; [exact Hdep |].
    destruct (dm !! dep) as [[x|]|]; simpl in Hid; try contradiction.
    destruct Hid as [-> | []]. reflexivity.
  - intros (d & dep & -> & Hdep & Hid). exists dep. split; [exact Hdep |].
    rewrite Hid. left. reflexivity.
Qed.

Section OneCall.
Variables (self : EnvBatch) (alljobs : list string).
Variables (no_batch : bool) (user_prereq : option string) (skip_pnl allow_fail : bool).
Variables (resubmit_immediate : bool) (mail_user : option string).
Variables (mail_type : option (list string)) (batch_args : option string).
Variable dry_run : bool.

Let round := submit_round (ext := ext) self alljobs no_batch user_prereq skip_pnl
               allow_fail resubmit_immediate mail_user mail_type batch_args dry_run.
Let rounds := submit_rounds (ext := ext) self alljobs no_batch user_prereq skip_pnl
                allow_fail resubmit_immediate mail_user mail_type batch_args dry_run.

(** One step of the inner loop that did not raise. *)
Lemma round_step (job : string) (dependency : option string)
    (rest : list (string * option string)) (prev_job : option string)
    (v v' : loop_vars) (st st' : state ext) :
  round ((job, dependency) :: rest) prev_job v st = (Ok v', st') ->
  exists result id st1 evs,
    let dep_jobs := dep_jobs_of user_prereq dependency (depid v) prev_job in
    let v1 := {| depid := <[job := id]> (depid v);
                 jobcmds := jobcmds v ++ [(job, result)];
                 batch_job_id := Some id |} in
    _submit_single_job self job (Some dep_jobs) allow_fail no_batch skip_pnl mail_user
      mail_type batch_args dry_run resubmit_immediate
      {| the_world := the_world st; log := log st ++ [Debug_depends job dep_jobs] |}
    = (Ok result, st1)
    /\ log st1 = (log st ++ [Debug_depends job dep_jobs]) ++ evs
    /\ Forall of_single_job evs
    /\ (dry_run = false -> id = result)
    /\ (if is_cobalt self then (Ok v1, st1) else round rest prev_job v1 st1) = (Ok v', st').
Proof.
  intros Hrun. subst round. simpl in Hrun.
  apply bind_Ok in Hrun. destruct Hrun as ([] & st0 & Hemit & Hrun).
  unfold emit in Hemit. inversion Hemit; subst st0; clear Hemit.
  apply bind_Ok in Hrun. destruct Hrun as (result & st1 & Hsubmit & Hrun).
  apply bind_Ok in Hrun. destruct Hrun as (id & st2 & Hid & Hrun).
  assert (Hst2 : st2 = st1 /\ (dry_run = false -> id = result)).
  { destruct dry_run.
    - destruct (Py.index job alljobs); inversion Hid; subst. split; [reflexivity | discriminate].
    - inversion Hid; subst. auto. }
  destruct Hst2 as [-> Hsame].
  destruct (_submit_single_job_emits self job
              (Some (dep_jobs_of user_prereq dependency (depid v) prev_job))
              allow_fail no_batch skip_pnl mail_user mail_type batch_args dry_run
              resubmit_immediate
              {| the_world := the_world st;
                 log := log st ++ [Debug_depends job
                                     (dep_jobs_of user_prereq dependency (depid v) prev_job)] |})
    as (evs & Hlog & Hevs).
  rewrite Hsubmit in Hlog. simpl in Hlog.
  exists result, id, st1, evs. simpl.
  repeat split; try assumption.
  destruct (is_cobalt self); exact Hrun.
Qed.

(** A round that is not cut short reports its jobs in order, each with
    the dependency list computed from the identifiers assigned before it. *)
Lemma round_trace (jobs : list (string * option string)) (prev_job : option string) :
  is_cobalt self = false ->
  forall (v v' : loop_vars) (st st' : state ext),
    round jobs prev_job v st = (Ok v', st') ->
    exists ids evs,
      length ids = length jobs
      /\ log st' = log st ++ evs
      /\ round_plan user_prereq jobs ids prev_job (depid v) = (dep_events evs, depid v')
      /\ batch_job_id v' = last_assigned ids (batch_job_id v).
Proof.
  intros Hcobalt.
  induction jobs as [|[job dependency] rest IH]; intros v v' st st' Hrun.
  - subst round. simpl in Hrun. inversion Hrun; subst.
    exists [], []. simpl. rewrite app_nil_r. auto.
  - apply round_step in Hrun.
    destruct Hrun as (result & id & st1 & evs1 & _ & Hlog1 & Hevs1 & _ & Hrest).
    rewrite Hcobalt in Hrest.
    apply IH in Hrest. destruct Hrest as (ids & evs2 & Hlen & Hlog2 & Hplan & Hlast).
    simpl in Hlog2, Hplan, Hlast.
    exists (id :: ids),
      ([Debug_depends job (dep_jobs_of user_prereq dependency (depid v) prev_job)]
       ++ evs1 ++ evs2).
    split; [simpl; congruence |].
    split; [rewrite Hlog2, Hlog1; rewrite <- !app_assoc; reflexivity |].
    split; [| exact Hlast].
    simpl. rewrite Hplan.
    rewrite dep_events_app, (dep_events_quiet Hevs1). reflexivity.
Qed.

Lemma round_plan_length (jobs : list (string * option string)) :
  forall (ids : list (option string)) (prev_job : option string)
         (dm : gmap string (option string)),
    length ids = length jobs ->
    length (fst (round_plan user_prereq jobs ids prev_job dm)) = length jobs.
Proof.
  induction jobs as [|[job dependency] rest IH]; intros ids prev_job dm Hlen.
  - destruct ids; reflexivity.
  - destruct ids as [|id ids]; [discriminate |]. simpl in *.
    specialize (IH ids prev_job (<[job := id]> dm)).
    destruct (round_plan user_prereq rest ids prev_job (<[job := id]> dm)).
    simpl in *. rewrite IH; [reflexivity | congruence].
Qed.

(** [num_submit] rounds that are not cut short make [num_submit] reports
    per job. *)
Lemma rounds_count (jobs : list (string * option string)) :
  is_cobalt self = false ->
  forall (num_submit : nat) (prev_job : option string) (v v' : loop_vars)
         (st st' : state ext),
    rounds num_submit jobs prev_job v st = (Ok v', st') ->
    exists evs,
      log st' = log st ++ evs
      /\ length (dep_events evs) = (num_submit * length jobs)%nat.
Proof.
  intros Hcobalt num_submit.
  induction num_submit as [|more IH]; intros prev_job v v' st st' Hrun.
  - subst rounds. simpl in Hrun. inversion Hrun; subst.
    exists []. rewrite app_nil_r. auto.
  - subst rounds. simpl in Hrun.
    apply bind_Ok in Hrun. destruct Hrun as (v1 & st1 & Hround & Hrun).
    destruct (round_trace jobs prev_job Hcobalt _ _ Hround)
      as (ids & evs1 & Hlen & Hlog1 & Hplan & _).
    destruct (batch_job_id v1) as [id|]; [| discriminate].
    apply IH in Hrun. destruct Hrun as (evs2 & Hlog2 & Hcount).
    exists (evs1 ++ evs2).
    split; [rewrite Hlog2, Hlog1, app_assoc; reflexivity |].
    rewrite dep_events_app, length_app, Hcount.
    assert (Hone : length (dep_events evs1) = length jobs).
    { pose proof (round_plan_length jobs ids prev_job (depid v) Hlen) as Hl.
      rewrite Hplan in Hl. exact Hl. }
    rewrite Hone. simpl. reflexivity.
Qed.

(** A single round. *)
Lemma rounds_one (jobs : list (string * option string)) (prev_job : option string)
    (v : loop_vars) (st : state ext) :
  rounds 1 jobs prev_job v st
  = match round jobs prev_job v st with
    | (Ok v', st') =>
        match batch_job_id v' with
        | Some _ => (Ok v', st')
        | None => (Err UnboundLocalError, st')
        end
    | (Err e, st') => (Err e, st')
    end.
Proof.
  subst rounds round. simpl. unfold bind.
  destruct (submit_round _ _ _ _ _ _ _ _ _ _ _ _ _ _ _) as [[v'|e] st']; [| reflexivity].
  destruct (batch_job_id v'); reflexivity.
Qed.

End OneCall.

End PlannerFacts.

Section OrchestratorFacts.
Context {node ext : Type} {X : GenericXML node} {U : Utils} {R : Runtime ext}.

Variables (self : EnvBatch) (no_batch : bool) (job user_prereq : option string).
Variables (skip_pnl allow_fail : bool) (mail_user : option string).
Variables (mail_type : option (list string)) (batch_args : option string).

(** [submit_jobs] once the jobs are chosen: the rounds are run from the
    state the planning of [num_submit] leaves. *)
Lemma submit_jobs_unfold (resubmit_immediate dry_run : bool)
    (jobs : list (string * option string)) (st st1 : state ext) :
  eligible_jobs self job dry_run st = (Ok jobs, st1) ->
  submit_jobs self no_batch job user_prereq skip_pnl allow_fail resubmit_immediate
    mail_user mail_type batch_args dry_run st
  = let (n, st2) := plan_num_submit resubmit_immediate st1 in
    match n with
    | Ok num_submit =>
        match submit_rounds self get_jobs no_batch user_prereq skip_pnl allow_fail
                resubmit_immediate mail_user mail_type batch_args dry_run
                (Z.to_nat num_submit) jobs None fresh_vars st2 with
        | (Ok v, st3) =>
            (Ok (if dry_run then JobCmds (jobcmds v) else DepIds (depid v)), st3)
        | (Err e, st3) => (Err e, st3)
        end
    | Err e => (Err e, st2)
    end.
Proof.
  intros Hjobs. unfold submit_jobs, bind. rewrite Hjobs.
  destruct (plan_num_submit resubmit_immediate st1) as [[num_submit|e] st2]; [| reflexivity].
  destruct (submit_rounds _ _ _ _ _ _ _ _ _ _ _ _ _ _ _ _) as [[v|e] st3]; [| reflexivity].
  destruct dry_run; reflexivity.
Qed.

(** C8: with an immediate resubmission the number of rounds is the
    counter of the case plus one, and at least one, and the counter is
    cleared; without it there is one round and the case is left alone.
    [submit_jobs] runs that many rounds, each reporting every job once. *)
Theorem resubmit_rounds (resubmit_immediate dry_run : bool)
    (jobs : list (string * option string)) (st st1 : state ext) :
  eligible_jobs self job dry_run st = (Ok jobs, st1) ->
  let counter := RESUBMIT (the_world st) in
  let num_submit := if resubmit_immediate then Z.max 1 (counter + 1) else 1%Z in
  let st2 :=
    if resubmit_immediate
    then {| the_world := {| RESUBMIT := 0; outside := outside (the_world st) |};
            log := log st1 |}
    else st1 in
  plan_num_submit resubmit_immediate st1 = (Ok num_submit, st2)
  /\ (1 <= num_submit)%Z
  /\ (resubmit_immediate = true -> RESUBMIT (the_world st2) = 0%Z)
  /\ (resubmit_immediate = false -> the_world st2 = the_world st)
  /\ submit_jobs self no_batch job user_prereq skip_pnl allow_fail resubmit_immediate
       mail_user mail_type batch_args dry_run st
     = match submit_rounds self get_jobs no_batch user_prereq skip_pnl allow_fail
               resubmit_immediate mail_user mail_type batch_args dry_run
               (Z.to_nat num_submit) jobs None fresh_vars st2 with
       | (Ok v, st3) =>
           (Ok (if dry_run then JobCmds (jobcmds v) else DepIds (depid v)), st3)
       | (Err e, st3) => (Err e, st3)
       end
  /\ (is_cobalt self = false ->
      forall r st',
        submit_jobs self no_batch job user_prereq skip_pnl allow_fail resubmit_immediate
          mail_user mail_type batch_args dry_run st = (Ok r, st') ->
        exists evs,
          log st' = log st2 ++ evs
          /\ length (dep_events evs) = (Z.to_nat num_submit * length jobs)%nat).
Proof.
  intros Hjobs counter num_submit st2.
  assert (Hworld : the_world st1 = the_world st).
  { pose proof (proj2 (eligible_jobs_frame self job dry_run) st) as Hkeep.
    rewrite Hjobs in Hkeep. exact Hkeep. }
  assert (Hplan : plan_num_submit resubmit_immediate st1 = (Ok num_submit, st2)).
  { subst num_submit st2 counter. unfold plan_num_submit. rewrite Hworld.
    destruct resubmit_immediate; [| reflexivity].
    destruct (RESUBMIT (the_world st) + 1 <=? 0)%Z eqn:Hle.
    - apply Z.leb_le in Hle. rewrite Z.max_l by lia. reflexivity.
    - apply Z.leb_gt in Hle. rewrite Z.max_r by lia. reflexivity. }
  assert (Hrun := @submit_jobs_unfold resubmit_immediate dry_run jobs st st1 Hjobs).
  rewrite Hplan in Hrun.
  split; [exact Hplan |].
  split; [subst num_submit; destruct resubmit_immediate; lia |].
  split; [intros ->; reflexivity |].
  split; [intros ->; exact Hworld |].
  split; [exact Hrun |].
  intros Hcobalt r st' Hok. rewrite Hrun in Hok.
  destruct (submit_rounds _ _ _ _ _ _ _ _ _ _ _ _ _ _ _ _) as [[v|e] st3] eqn:Hrounds;
    [| discriminate].
  inversion Hok; subst st3.
  eapply rounds_count; [exact Hcobalt | exact Hrounds].
Qed.

(** C1, as the code has it: in a single round over A, B and C the jobs
    are reported in that order; each list holds the external prerequisite,
    if any, and then the identifiers of the jobs that job declares and that
    were submitted before it.  So the list of B holds the identifier of A
    when B declares A, and the list of C holds the identifier of B only
    when C declares B: no previous job is added inside a round. *)
Theorem single_round_dependencies (dry_run : bool) (A B C : string)
    (dA dB dC : option string) (st st1 st' : state ext) (r : submitted) :
  is_cobalt self = false ->
  eligible_jobs self job dry_run st = (Ok [(A, dA); (B, dB); (C, dC)], st1) ->
  submit_jobs self no_batch job user_prereq skip_pnl allow_fail false
    mail_user mail_type batch_args dry_run st = (Ok r, st') ->
  exists (idA idB idC : option string) (evs : list event),
    let afterA : gmap string (option string) := <[A := idA]> ∅ in
    let afterB : gmap string (option string) := <[B := idB]> afterA in
    log st' = log st1 ++ evs
    /\ dep_events evs
       = [(A, given user_prereq ++ declared_ids dA ∅);
          (B, given user_prereq ++ declared_ids dB afterA);
          (C, given user_prereq ++ declared_ids dC afterB)]
    /\ (dry_run = false -> r = DepIds (<[C := idC]> afterB))
    /\ (forall d a, dB = Some d -> In A (Py.split_ws d) -> idA = Some a ->
        In a (declared_ids dB afterA))
    /\ (forall x, In x (declared_ids dC afterB) ->
        exists d dep, dC = Some d /\ In dep (Py.split_ws d)
                      /\ afterB !! dep = Some (Some x))
    /\ (dC = None -> declared_ids dC afterB = []).
Proof.
  intros Hcobalt Hjobs Hok.
  rewrite (@submit_jobs_unfold false dry_run _ st st1 Hjobs) in Hok.
  unfold plan_num_submit in Hok. cbv beta iota in Hok.
  change (Z.to_nat 1) with 1%nat in Hok. rewrite rounds_one in Hok.
  destruct (submit_round _ _ _ _ _ _ _ _ _ _ _ _ _ _ _) as [[v1|e] st2] eqn:Hround;
    [| discriminate].
  pose proof Hround as Htrace.
  eapply round_trace in Htrace; [| exact Hcobalt].
  destruct Htrace as (ids & evs & Hlen & Hlog & Hplan & _).
  destruct ids as [|idA [|idB [|idC [|? ?]]]]; try discriminate.
  simpl in Hplan. inversion Hplan as [[Hevents Hmap]].
  rewrite !dep_jobs_of_first_round in Hevents.
  destruct (batch_job_id v1); [| discriminate].
  inversion Hok; subst r st2.
  exists idA, idB, idC, evs. simpl.
  split; [exact Hlog |].
  split; [symmetry; exact Hevents |].
  split; [intros ->; rewrite Hmap; reflexivity |].
  split.
  - intros d a -> Hin ->. apply declared_ids_In.
    exists d, A. repeat split; [exact Hin |]. apply lookup_insert_eq.
  - split.
    + intros x Hx. apply declared_ids_In in Hx. exact Hx.
    + intros ->. reflexivity.
Qed.

End OrchestratorFacts.

(** ** Submission without a batch system *)

Section NoBatchFacts.
Context {node ext : Type} {X : GenericXML node} {U : Utils} {R : Runtime ext}.

Lemma no_batch_event_mono (user_prereq : option string)
    (dm dm' : gmap string (option string)) (e : event) :
  (forall j, dm !! j = Some None -> dm' !! j = Some None) ->
  no_batch_event user_prereq dm e -> no_batch_event user_prereq dm' e.
Proof.
  intros Hmono. destruct e; simpl; auto.
  intros [Hdeps Hid]. auto.
Qed.

Lemma dep_jobs_of_all_none (user_prereq dependency : option string)
    (dm : gmap string (option string)) :
  all_none dm -> dep_jobs_of user_prereq dependency dm None = given user_prereq.
Proof.
  intros Hnone. rewrite dep_jobs_of_first_round.
  assert (Hempty : declared_ids dependency dm = []).
  { destruct (declared_ids dependency dm) as [|x l] eqn:Hids; [reflexivity |].
    assert (Hin : In x (declared_ids dependency dm)) by (rewrite Hids; left; reflexivity).
    apply declared_ids_In in Hin. destruct Hin as (d & dep & _ & _ & Hlookup).
    apply Hnone in Hlookup. discriminate. }
  rewrite Hempty. apply app_nil_r.
Qed.

Lemma all_none_insert (dm : gmap string (option string)) (j : string) :
  all_none dm -> all_none (<[j := None]> dm).
Proof.
  intros Hnone k id. destruct (decide (j = k)) as [-> | Hne].
  - rewrite lookup_insert_eq. congruence.
  - rewrite lookup_insert_ne by exact Hne. apply Hnone.
Qed.

Lemma insert_none_keeps (dm : gmap string (option string)) (j k : string) :
  dm !! k = Some None -> <[j := None]> dm !! k = Some None.
Proof.
  intros Hk. destruct (decide (j = k)) as [-> | Hne].
  - apply lookup_insert_eq.
  - rewrite lookup_insert_ne by exact Hne. exact Hk.
Qed.

Section InProcess.
Variables (self : EnvBatch) (alljobs : list string).
Variables (no_batch : bool) (user_prereq : option string) (skip_pnl allow_fail : bool).
Variables (resubmit_immediate : bool) (mail_user : option string).
Variables (mail_type : option (list string)) (batch_args : option string).
Hypothesis Hmode : no_batch_mode no_batch.

Let round := submit_round (ext := ext) self alljobs no_batch user_prereq skip_pnl
               allow_fail resubmit_immediate mail_user mail_type batch_args false.
Let rounds := submit_rounds (ext := ext) self alljobs no_batch user_prereq skip_pnl
                allow_fail resubmit_immediate mail_user mail_type batch_args false.

Lemma round_no_batch (jobs : list (string * option string)) :
  forall (v v' : loop_vars) (st st' : state ext),
    all_none (depid v) ->
    round jobs None v st = (Ok v', st') ->
    all_none (depid v')
    /\ (forall j, depid v !! j = Some None -> depid v' !! j = Some None)
    /\ (batch_job_id v' = batch_job_id v \/ batch_job_id v' = Some None)
    /\ exists evs,
         log st' = log st ++ evs
         /\ Forall (no_batch_event user_prereq (depid v')) evs.
Proof.
  induction jobs as [|[job dependency] rest IH]; intros v v' st st' Hnone Hrun.
  - subst round. simpl in Hrun. inversion Hrun; subst.
    repeat split; auto. exists []. rewrite app_nil_r. auto.
  - apply round_step in Hrun.
    destruct Hrun as (result & id & st1 & evs1 & Hsubmit & _ & _ & Hid & Hrest).
    specialize (Hid eq_refl). subst id.
    rewrite (dep_jobs_of_all_none user_prereq dependency Hnone) in Hsubmit.
    rewrite _submit_single_job_in_process in Hsubmit by exact Hmode.
    simpl in Hsubmit.
    destruct (case_call _ _ _) as [[[]|e] w]; inversion Hsubmit; subst result st1;
      clear Hsubmit.
    set (v1 := {| depid := <[job := None]> (depid v);
                  jobcmds := jobcmds v ++ [(job, None)];
                  batch_job_id := Some None |}) in *.
    assert (Hnone1 : all_none (depid v1)) by (apply all_none_insert; exact Hnone).
    assert (Hgoal :
              forall evs2,
                (forall j, depid v1 !! j = Some None -> depid v' !! j = Some None) ->
                Forall (no_batch_event user_prereq (depid v')) evs2 ->
                Forall (no_batch_event user_prereq (depid v'))
                  ([Debug_depends job (given user_prereq); Warning_submit job;
                    Info_starting job] ++ evs2)).
    { intros evs2 Hmono Hevs2. repeat constructor; try exact Hevs2.
      apply Hmono. apply lookup_insert_eq. }
    destruct (is_cobalt self).
    + inversion Hrest; subst v' st'. simpl.
      split; [exact Hnone1 |].
      split; [intros j; apply insert_none_keeps |].
      split; [right; reflexivity |].
      exists [Debug_depends job (given user_prereq); Warning_submit job; Info_starting job].
      split; [rewrite <- !app_assoc; reflexivity |].
      rewrite <- (app_nil_r [_; _; _]). apply Hgoal; auto.
    + apply IH in Hrest; [| exact Hnone1].
      destruct Hrest as (Hnone' & Hmono & Hlast & evs2 & Hlog2 & Hevs2).
      split; [exact Hnone' |].
      split; [intros j Hj; apply Hmono; apply insert_none_keeps; exact Hj |].
      split; [right; destruct Hlast as [-> | ->]; reflexivity |].
      exists ([Debug_depends job (given user_prereq); Warning_submit job; Info_starting job]
              ++ evs2).
      split; [rewrite Hlog2; simpl; rewrite <- !app_assoc; reflexivity |].
      apply Hgoal; assumption.
Qed.

Lemma rounds_no_batch (jobs : list (string * option string)) (num_submit : nat) :
  forall (v v' : loop_vars) (st st' : state ext),
    all_none (depid v) ->
    batch_job_id v = None \/ batch_job_id v = Some None ->
    rounds num_submit jobs None v st = (Ok v', st') ->
    all_none (depid v')
    /\ (forall j, depid v !! j = Some None -> depid v' !! j = Some None)
    /\ exists evs,
         log st' = log st ++ evs
         /\ Forall (no_batch_event user_prereq (depid v')) evs.
Proof.
  induction num_submit as [|more IH]; intros v v' st st' Hnone Hlast Hrun.
  - subst rounds. simpl in Hrun. inversion Hrun; subst.
    repeat split; auto. exists []. rewrite app_nil_r. auto.
  - subst rounds. simpl in Hrun.
    apply bind_Ok in Hrun. destruct Hrun as (v1 & st1 & Hround & Hrun).
    apply round_no_batch in Hround; [| exact Hnone].
    destruct Hround as (Hnone1 & Hmono1 & Hlast1 & evs1 & Hlog1 & Hevs1).
    assert (Hid : batch_job_id v1 = None \/ batch_job_id v1 = Some None).
    { destruct Hlast1 as [-> | ->]; auto. }
    destruct (batch_job_id v1) as [id|] eqn:Hv1; [| discriminate].
    assert (id = None) by (destruct Hid as [? | ?]; congruence). subst id.
    apply IH in Hrun; [| exact Hnone1 | right; exact Hv1].
    destruct Hrun as (Hnone' & Hmono & evs2 & Hlog2 & Hevs2).
    split; [exact Hnone' |].
    split; [auto |].
    exists (evs1 ++ evs2).
    split; [rewrite Hlog2, Hlog1, app_assoc; reflexivity |].
    apply Forall_app. split; [| exact Hevs2].
    eapply Forall_impl; [exact Hevs1 |].
    intros e. apply no_batch_event_mono. exact Hmono.
Qed.

End InProcess.

(** C10: without a batch system and outside a dry run, a job is run in
    process and [_submit_single_job] returns [None] for it; the map that
    [submit_jobs] returns gives [None] for every job; every job is reported
    with the external prerequisite as its only dependency and is in that
    map; and no dependency clause is built. *)
Theorem no_batch_submission (self : EnvBatch) (no_batch : bool)
    (skip_pnl allow_fail resubmit_immediate : bool) (mail_user : option string)
    (mail_type : option (list string)) (batch_args : option string) :
  no_batch_mode no_batch ->
  (forall (job : string) (dep_jobs : option (list string)) (st : state ext),
     fst (_submit_single_job self job dep_jobs allow_fail no_batch skip_pnl mail_user
            mail_type batch_args false resubmit_immediate st)
     = match fst (case_call (Py.replace "." "_" job)
                    (in_process_kwargs job skip_pnl resubmit_immediate) (the_world st)) with
       | Ok _ => Ok None
       | Err e => Err e
       end)
  /\ (forall (job user_prereq : option string) (st st' : state ext)
             (ids : gmap string (option string)),
        submit_jobs self no_batch job user_prereq skip_pnl allow_fail resubmit_immediate
          mail_user mail_type batch_args false st = (Ok (DepIds ids), st') ->
        all_none ids
        /\ exists evs,
             log st' = log st ++ evs
             /\ Forall (no_batch_event user_prereq ids) evs).
Proof.
  intros Hmode. split.
  - intros job dep_jobs st.
    rewrite _submit_single_job_in_process by exact Hmode.
    destruct (case_call _ _ _) as [[[]|e] w]; reflexivity.
  - intros job user_prereq st st' ids Hok.
    destruct (eligible_jobs self job false st) as [[jobs|e] st1] eqn:Hjobs.
    2: { unfold submit_jobs, bind in Hok. rewrite Hjobs in Hok. discriminate. }
    rewrite (@submit_jobs_unfold _ _ _ _ _ self no_batch job user_prereq skip_pnl
               allow_fail mail_user mail_type batch_args resubmit_immediate false
               jobs st st1 Hjobs) in Hok.
    destruct (plan_num_submit resubmit_immediate st1) as [[num_submit|e] st2] eqn:Hplan;
      [| discriminate].
    destruct (submit_rounds _ _ _ _ _ _ _ _ _ _ _ _ _ _ _ _) as [[v|e] st3] eqn:Hrounds;
      [| discriminate].
    inversion Hok; subst ids st3.
    eapply rounds_no_batch in Hrounds;
      [| exact Hmode | intros j x Hj; unfold fresh_vars in Hj; simpl in Hj;
         rewrite lookup_empty in Hj; discriminate
       | left; reflexivity].
    destruct Hrounds as (Hnone & _ & evs2 & Hlog2 & Hevs2).
    split; [exact Hnone |].
    pose proof (proj1 (eligible_jobs_frame self job false) st) as (evs1 & Hlog1 & Hevs1).
    rewrite Hjobs in Hlog1. simpl in Hlog1.
    assert (Hlog12 : log st2 = log st1).
    { unfold plan_num_submit in Hplan.
      destruct resubmit_immediate; [destruct (_ <=? _)%Z |]; inversion Hplan; reflexivity. }
    exists (evs1 ++ evs2).
    split; [rewrite Hlog2, Hlog12, Hlog1, app_assoc; reflexivity |].
    apply Forall_app. split; [| exact Hevs2].
    eapply Forall_impl; [exact Hevs1 |].
    intros e He. destruct e; simpl in He; try contradiction. exact I.
Qed.

End NoBatchFacts.

(** ** The statements on the concrete machine and workflow *)

(** The docstring examples of [_get_supported_args] and [_build_run_args]. *)
Example _get_supported_args_examples :
  _get_supported_args EmptyString false = []
  /\ _get_supported_args "case.test" false = [("skip_pnl", "--skip-preview-namelist")]
  /\ _get_supported_args "case.st_archive" true = [("resubmit", "--resubmit")].
Proof. repeat split. Qed.

Example _build_run_args_examples :
  _build_run_args "case.run" false [("skip_pnl", true); ("cthulu", true)]
  = [("skip_pnl", (true, "--skip-preview-namelist"))]
  /\ _build_run_args "case.run" false [("skip_pnl", false); ("cthulu", true)] = [].
Proof. repeat split. Qed.

Lemma queue_meets_spec_unknown_queue_witness :
  queue_meets_spec (X := Fixture.xml Fixture.machine) (U := Fixture.utils)
    "mystery" 500 9000 (Some "99:00:00") (Some "case.run") = Ok true.
Proof.
  eapply @queue_meets_spec_unknown_queue with (all_queues := Fixture.catalog).
  - reflexivity.
  - repeat (constructor; [cbv; discriminate |]). constructor.
Defined.

Lemma queue_meets_spec_jobname_witness :
  let meets := queue_meets_spec (X := Fixture.xml Fixture.machine) (U := Fixture.utils)
                 "share" 500 9000 (Some "99:00:00") in
  meets (Some "case.st_archive") = Ok true /\ meets (Some "case.run") = Ok false.
Proof.
  intros meets. subst meets. split.
  - eapply @queue_meets_spec_jobname with (declared := "case.st_archive");
      reflexivity.
  - eapply @queue_meets_spec_jobname with (declared := "case.st_archive");
      [reflexivity | reflexivity | discriminate].
Defined.

(** [debug] stands first in the file and meets the request, yet the
    default queue is the answer. *)
Lemma select_best_queue_default_first_witness :
  select_best_queue (X := Fixture.xml Fixture.machine) (U := Fixture.utils)
    1 1 (Some "00:10:00") None = Ok (Some "regular")
  /\ queue_meets_spec (X := Fixture.xml Fixture.machine) (U := Fixture.utils)
       "debug" 1 1 (Some "00:10:00") None = Ok true.
Proof.
  split; [| reflexivity].
  eapply @select_best_queue_default_first
    with (all_queues := Fixture.catalog)
         (default := Fixture.queue "regular"
                       [("default", "true"); ("nodemax", "100");
                        ("walltimemax", "01:00:00"); ("strict", "true")]);
    reflexivity.
Defined.

Lemma get_queue_specs_exclusive_bounds_witness :
  exists e,
    exclusive_bounds_error e
    /\ get_queue_specs (X := Fixture.xml Fixture.machine) "broken" = Err e.
Proof.
  destruct (@get_queue_specs_exclusive_bounds _ (Fixture.xml Fixture.machine) Fixture.utils
              "broken" (firstn 4 Fixture.catalog) []
              (Fixture.queue "broken" [("nodemin", "1"); ("jobmin", "1")]))
    as (e & He & _ & Hspecs & _).
  - reflexivity.
  - repeat (constructor; [cbv; discriminate |]). constructor.
  - reflexivity.
  - left. split; eexists; reflexivity.
  - exists e. split; assumption.
Defined.

Lemma queue_meets_spec_walltime_witness :
  let meets := queue_meets_spec (X := Fixture.xml Fixture.machine) (U := Fixture.utils)
                 "regular" 8 64 in
  meets (Some "01:00:00") None = Ok true /\ meets (Some "01:00:01") None = Ok false.
Proof.
  intros meets. subst meets.
  destruct (@queue_meets_spec_walltime _ (Fixture.xml Fixture.machine) Fixture.utils
              "regular"
              {| nodemin := None; nodemax := Some 100%Z; jobname := None;
                 walltimemax := Some "01:00:00"; jobmin := None; jobmax := None;
                 strict := true |}
              8 64 None)
    as (Hsame & Hmore & _).
  - reflexivity.
  - reflexivity.
  - left. reflexivity.
  - reflexivity.
  - split; [exact Hsame | exact Hmore].
Defined.

(** A specification that is not strict takes both walltimes. *)
Example queue_meets_spec_not_strict :
  let meets := queue_meets_spec (X := Fixture.xml Fixture.machine) (U := Fixture.utils)
                 "long" 8 64 in
  meets (Some "01:00:00") None = Ok true /\ meets (Some "01:00:01") None = Ok true.
Proof. split; reflexivity. Qed.

(** With [depend_string] configured and no [depend_allow_string], the
    clause for two identifiers is built from [depend_string]. *)
Lemma dependency_clause_failures_witness :
  fst (dependency_clause (X := Fixture.xml (Fixture.workflow "pbs")) true
         "100" ["101"] "-q batch" (Fixture.initial 0))
  = Ok "-q batch -W depend=afterok:100:101".
Proof.
  destruct (@dependency_clause_failures _ _ (Fixture.xml (Fixture.workflow "pbs"))
              Fixture.utils (Fixture.runtime 0) Fixture.pbs "case.st_archive"
              "100" ["101"] true false None None None true false (Fixture.initial 0)
              "pbs" "-q batch" None None (Some "-W depend=afterok:jobid") (Some ":"))
    as (_ & _ & _ & Hbuilt);
    [reflexivity | discriminate | reflexivity | reflexivity | reflexivity
     | reflexivity | reflexivity |].
  apply (Hbuilt "-W depend=afterok:jobid" ":"); reflexivity.
Defined.

(** C2 as stated fails: failed dependencies are allowed, the scheduler
    has no [depend_allow_string], and the job is submitted all the same. *)
Lemma missing_allow_string_is_not_fatal :
  get_value (X := Fixture.xml (Fixture.workflow "pbs"))
    "depend_allow_string" None true None = Ok None
  /\ fst (_submit_single_job (X := Fixture.xml (Fixture.workflow "pbs"))
            (U := Fixture.utils) (R := Fixture.runtime 0) Fixture.pbs
            "case.st_archive" (Some ["100"]) true false false None None None
            true false (Fixture.initial 0))
     = Ok (Some "qsub -q batch -W depend=afterok:100 .case.st_archive --resubmit")
  /\ fst (_submit_single_job (X := Fixture.xml (Fixture.workflow "pbs"))
            (U := Fixture.utils) (R := Fixture.runtime 0) Fixture.pbs
            "case.st_archive" (Some ["100"]) true false false None None None
            false false (Fixture.initial 0))
     = Ok (Some "100").
Proof.
  split; [vm_compute; reflexivity |].
  split; vm_compute; reflexivity.
Qed.

(** C3 fails where the cancel command exits with status 1: [cancel_job]
    returns [None], which is neither [True] nor [False]. *)
Theorem cancel_job_returns_None_on_failure :
  fst (cancel_job (X := Fixture.xml (Fixture.workflow "pbs")) (R := Fixture.runtime 1)
         "42" (Fixture.initial 0))
  = Ok None.
Proof. reflexivity. Qed.

(** The other two outcomes of [cancel_job] are Booleans. *)
Example cancel_job_other_outcomes :
  fst (cancel_job (X := Fixture.xml (Fixture.workflow "pbs")) (R := Fixture.runtime 0)
         "42" (Fixture.initial 0))
  = Ok (Some true)
  /\ fst (cancel_job (X := Fixture.xml Fixture.machine) (R := Fixture.runtime 0)
            "42" (Fixture.initial 0))
     = Ok (Some false).
Proof. split; reflexivity. Qed.

(** A counter of 2 gives three rounds and is cleared. *)
Lemma resubmit_rounds_witness :
  let chosen := eligible_jobs (X := Fixture.xml (Fixture.workflow "pbs"))
                  (U := Fixture.utils) (R := Fixture.runtime 0)
                  Fixture.pbs None false (Fixture.initial 2) in
  exists st2,
    plan_num_submit true (snd chosen) = (Ok 3%Z, st2)
    /\ RESUBMIT (the_world st2) = 0%Z.
Proof.
  intros chosen.
  destruct (@resubmit_rounds _ _ (Fixture.xml (Fixture.workflow "pbs"))
              Fixture.utils (Fixture.runtime 0) Fixture.pbs false None None
              false false None None None true false
              [("case.run", None); ("case.st_archive", Some "case.run");
               ("case.lt_archive", None)]
              (Fixture.initial 2) (snd chosen))
    as (Hplan & _ & Hcleared & _).
  - vm_compute. reflexivity.
  - eexists. split; [exact Hplan | exact (Hcleared eq_refl)].
Defined.

(** The three jobs of the workflow in one round on the batch system. *)
Lemma single_round_dependencies_witness :
  let st := Fixture.initial 0 in
  let chosen := eligible_jobs (X := Fixture.xml (Fixture.workflow "pbs"))
                  (U := Fixture.utils) (R := Fixture.runtime 0)
                  Fixture.pbs None false st in
  let run := submit_jobs (X := Fixture.xml (Fixture.workflow "pbs"))
               (U := Fixture.utils) (R := Fixture.runtime 0)
               Fixture.pbs false None None false false false None None None false st in
  exists (idA idB : option string) (evs : list event),
    log (snd run) = log (snd chosen) ++ evs
    /\ dep_events evs
       = [("case.run", declared_ids None ∅);
          ("case.st_archive", declared_ids (Some "case.run") (<["case.run" := idA]> ∅));
          ("case.lt_archive",
           declared_ids None (<["case.st_archive" := idB]> (<["case.run" := idA]> ∅)))].
Proof.
  intros st chosen run.
  destruct (@single_round_dependencies _ _ (Fixture.xml (Fixture.workflow "pbs"))
              Fixture.utils (Fixture.runtime 0) Fixture.pbs false None None
              false false None None None false
              "case.run" "case.st_archive" "case.lt_archive"
              None (Some "case.run") None st (snd chosen) (snd run)
              (match fst run with Ok r => r | Err _ => JobCmds [] end))
    as (idA & idB & idC & evs & Hlog & Hevents & _).
  - reflexivity.
  - vm_compute. reflexivity.
  - vm_compute. reflexivity.
  - exists idA, idB, evs. split; [exact Hlog | exact Hevents].
Defined.

(** C1 as stated fails: B is the short-term archiver with identifier
    101, and the list of C, which declares nothing, is empty. *)
Lemma previous_job_not_chained_within_round :
  let run := submit_jobs (X := Fixture.xml (Fixture.workflow "pbs"))
               (U := Fixture.utils) (R := Fixture.runtime 0)
               Fixture.pbs false None None false false false None None None false
               (Fixture.initial 0) in
  exists (ids : gmap string (option string)) (depsC : list string),
    fst run = Ok (DepIds ids)
    /\ ids !! "case.run" = Some (Some "100")
    /\ ids !! "case.st_archive" = Some (Some "101")
    /\ dep_events (log (snd run))
       = [("case.run", []); ("case.st_archive", ["100"]); ("case.lt_archive", depsC)]
    /\ ~ In "101" depsC.
Proof.
  intros run.
  exists (match fst run with Ok (DepIds ids) => ids | _ => ∅ end), [].
  split; [vm_compute; reflexivity |].
  split; [vm_compute; reflexivity |].
  split; [vm_compute; reflexivity |].
  split; [vm_compute; reflexivity |].
  intros [].
Qed.

(** The workflow without batch system: every job is run in process. *)
Lemma no_batch_submission_witness :
  let run := submit_jobs (X := Fixture.xml (Fixture.workflow "none"))
               (U := Fixture.utils) (R := Fixture.runtime 0)
               Fixture.pbs false None (Some "77") false false false None None None false
               (Fixture.initial 0) in
  exists ids,
    fst run = Ok (DepIds ids)
    /\ all_none ids
    /\ dep_events (log (snd run))
       = [("case.run", ["77"]); ("case.st_archive", ["77"]); ("case.lt_archive", ["77"])].
Proof.
  intros run.
  destruct (@no_batch_submission _ _ (Fixture.xml (Fixture.workflow "none"))
              Fixture.utils (Fixture.runtime 0) Fixture.pbs false
              false false false None None None)
    as (_ & Hjobs).
  - exists (Some "none"). split; [reflexivity | right; left; reflexivity].
  - destruct (Hjobs None (Some "77") (Fixture.initial 0) (snd run)
                (match fst run with Ok (DepIds ids) => ids | _ => ∅ end))
      as (Hnone & _); [vm_compute; reflexivity |].
    eexists. split; [vm_compute; reflexivity |].
    split; [exact Hnone | vm_compute; reflexivity].
Defined.

(** ** Further properties of the queue resolver *)

Section ResolverMore.
Context {node : Type} {X : GenericXML node} {U : Utils}.

Lemma find_queue_specs_named (nodes : list node) (queue : string) (specs : queue_specs) :
  find_queue_specs nodes queue = Ok (Some specs) ->
  exists n, In n nodes /\ text n = queue.
Proof.
  induction nodes as [|m rest IH]; simpl; [discriminate |].
  destruct (String.eqb (text m) queue) eqn:Hm.
  - intros _. exists m. split; [left; reflexivity | apply String.eqb_eq; exact Hm].
  - intros H. destruct (IH H) as (n & Hn & Htext). exists n. split; [right |]; assumption.
Qed.

(** What a walltime can change in the answer of [queue_meets_spec]. *)
Lemma queue_meets_spec_drop_walltime (queue : string) (num_nodes num_tasks : Z)
    (w : string) (job : option string) (b : bool) :
  queue_meets_spec queue num_nodes num_tasks (Some w) job = Ok b ->
  exists b',
    queue_meets_spec queue num_nodes num_tasks None job = Ok b'
    /\ (b = true -> b' = true)
    /\ (b = false -> b' = true ->
        exists specs wmax,
          get_queue_specs queue = Ok (Some specs)
          /\ walltimemax specs = Some wmax /\ strict specs = true).
Proof.
  unfold queue_meets_spec.
  destruct (get_queue_specs queue) as [[sp|]|e]; simpl; [| | discriminate].
  - assert (Hcore :
              (if under num_nodes (nodemin sp) || over num_nodes (nodemax sp)
                  || under num_tasks (jobmin sp) || over num_tasks (jobmax sp)
               then Ok false
               else match walltimemax sp with
                    | Some wtmax =>
                        if strict sp then
                          try! walltime_s := convert_to_seconds w in
                          try! walltimemax_s := convert_to_seconds wtmax in
                          if (walltime_s >? walltimemax_s)%Z then Ok false else Ok true
                        else Ok true
                    | None => Ok true
                    end) = Ok b ->
              exists b',
                (if under num_nodes (nodemin sp) || over num_nodes (nodemax sp)
                    || under num_tasks (jobmin sp) || over num_tasks (jobmax sp)
                 then Ok false else Ok true) = Ok b'
                /\ (b = true -> b' = true)
                /\ (b = false -> b' = true ->
                    exists specs wmax,
                      Ok (Some sp) = Ok (Some specs)
                      /\ walltimemax specs = Some wmax /\ strict specs = true)).
    { destruct (under num_nodes (nodemin sp) || over num_nodes (nodemax sp)
                || under num_tasks (jobmin sp) || over num_tasks (jobmax sp)).
      - intros H. inversion H; subst. exists false.
        split; [reflexivity | split; [discriminate | discriminate]].
      - destruct (walltimemax sp) as [wmax|] eqn:Hmax.
        + destruct (strict sp) eqn:Hstrict.
          * intros _. exists true. split; [reflexivity | split; [auto |]].
            intros _ _. exists sp, wmax. auto.
          * intros H. inversion H; subst. exists true.
            split; [reflexivity | split; [auto | discriminate]].
        + intros H. inversion H; subst. exists true.
          split; [reflexivity | split; [auto | discriminate]]. }
    destruct job as [j|], (jobname sp) as [jn|]; try exact Hcore.
    intros H. inversion H; subst. eexists.
    split; [reflexivity | split; [auto |]].
    intros Hf Ht. congruence.
  - intros H. inversion H; subst. exists true. repeat split; auto. discriminate.
Qed.

Lemma first_meeting_drop_walltime (qnames : list string) (num_nodes num_tasks : Z)
    (w : string) (job : option string) (q : string) :
  first_meeting qnames num_nodes num_tasks (Some w) job = Ok (Some q) ->
  exists q', first_meeting qnames num_nodes num_tasks None job = Ok (Some q').
Proof.
  induction qnames as [|p rest IH]; simpl; [discriminate |].
  destruct (queue_meets_spec p num_nodes num_tasks (Some w) job) as [b|e] eqn:Hp;
    simpl; [| discriminate].
  destruct (queue_meets_spec_drop_walltime _ _ _ _ _ Hp) as (b' & -> & Htrue & _).
  simpl. destruct b.
  - intros _. rewrite (Htrue eq_refl). eauto.
  - intros H. destruct b'; [eauto | exact (IH H)].
Qed.

(** X1: a walltime can only turn an acceptance into a rejection.  A queue
    that meets a request with a walltime meets it without one, and when
    [select_best_queue] finds a queue for a request with a walltime it
    finds one for the request without it. *)
Theorem walltime_only_restricts (num_nodes num_tasks : Z) (w : string)
    (job : option string) :
  (forall queue,
     queue_meets_spec queue num_nodes num_tasks (Some w) job = Ok true ->
     queue_meets_spec queue num_nodes num_tasks None job = Ok true)
  /\ (forall q,
        select_best_queue num_nodes num_tasks (Some w) job = Ok (Some q) ->
        exists q', select_best_queue num_nodes num_tasks None job = Ok (Some q')).
Proof.
  split.
  - intros queue H.
    destruct (queue_meets_spec_drop_walltime _ _ _ _ _ H) as (b' & Hb' & Htrue & _).
    rewrite Hb', (Htrue eq_refl). reflexivity.
  - intros q. unfold select_best_queue.
    destruct _get_all_queue_names as [qnames|e]; simpl; [| discriminate].
    apply first_meeting_drop_walltime.
Qed.

(** X2: the request is checked against the bounds before the walltime is
    looked at.  When no job name decides and the node count or the task
    count lies outside a bound that is set, the queue is rejected for every
    walltime, readable or not; inside all bounds and without a walltime it
    is accepted. *)
Theorem queue_meets_spec_bounds (queue : string) (specs : queue_specs)
    (num_nodes num_tasks : Z) (job : option string) :
  get_queue_specs queue = Ok (Some specs) ->
  job = None \/ jobname specs = None ->
  let inside (n : Z) (low high : option Z) : Prop :=
    (forall b, low = Some b -> (b <= n)%Z) /\ (forall b, high = Some b -> (n <= b)%Z) in
  (inside num_nodes (nodemin specs) (nodemax specs)
   /\ inside num_tasks (jobmin specs) (jobmax specs) ->
   queue_meets_spec queue num_nodes num_tasks None job = Ok true)
  /\ (~ (inside num_nodes (nodemin specs) (nodemax specs)
         /\ inside num_tasks (jobmin specs) (jobmax specs)) ->
      forall walltime,
        queue_meets_spec queue num_nodes num_tasks walltime job = Ok false).
Proof.
  intros Hspecs Hrule inside.
  assert (Hbounds :
            under num_nodes (nodemin specs) || over num_nodes (nodemax specs)
            || under num_tasks (jobmin specs) || over num_tasks (jobmax specs) = false
            <-> inside num_nodes (nodemin specs) (nodemax specs)
                /\ inside num_tasks (jobmin specs) (jobmax specs)).
  { subst inside. unfold under, over. rewrite !orb_false_iff. split.
    - intros [[[H1 H2] H3] H4]. repeat split; intros b Hb; rewrite Hb in *; lia.
    - intros [[H1 H2] [H3 H4]]. repeat split.
      + destruct (nodemin specs) as [b|]; [specialize (H1 b eq_refl); lia | reflexivity].
      + destruct (nodemax specs) as [b|]; [specialize (H2 b eq_refl); lia | reflexivity].
      + destruct (jobmin specs) as [b|]; [specialize (H3 b eq_refl); lia | reflexivity].
      + destruct (jobmax specs) as [b|]; [specialize (H4 b eq_refl); lia | reflexivity]. }
  unfold queue_meets_spec. rewrite Hspecs. simpl. split.
  - intros Hin. apply Hbounds in Hin.
    destruct job, (jobname specs); destruct Hrule; try discriminate;
      rewrite Hin; reflexivity.
  - intros Hout walltime.
    destruct (under num_nodes (nodemin specs) || over num_nodes (nodemax specs)
              || under num_tasks (jobmin specs) || over num_tasks (jobmax specs)) eqn:Hb.
    + destruct job, (jobname specs); destruct Hrule; try discriminate; reflexivity.
    + exfalso. apply Hout. apply Hbounds. reflexivity.
Qed.

Lemma get_all_queues_from_none (bs_nodes nodes : list node) :
  (forall bsnode, In bsnode bs_nodes ->
                  get_optional_child "queues" None (Some bsnode) = Ok None) ->
  get_all_queues_from bs_nodes nodes = Ok nodes.
Proof.
  induction bs_nodes as [|b rest IH]; intros H; cbn [get_all_queues_from].
  - reflexivity.
  - rewrite (H b) by (left; reflexivity). cbn [rbind].
    apply IH. intros c Hc. apply H. right. exact Hc.
Qed.

Lemma default_over_none (bs_nodes : list node) (cur : option node) :
  (forall bsnode, In bsnode bs_nodes ->
                  get_children (Some "queues") None (Some bsnode) = []) ->
  default_over bs_nodes cur = Ok cur.
Proof.
  induction bs_nodes as [|b rest IH]; intros H; cbn [default_over].
  - reflexivity.
  - rewrite (H b) by (left; reflexivity). cbn [default_among rbind].
    apply IH. intros c Hc. apply H. right. exact Hc.
Qed.

(** X3: a file without queues has no default queue: [get_default_queue]
    raises, and with it the list of names and every selection. *)
Theorem no_queues_found (num_nodes num_tasks : Z) (walltime job : option string) :
  (forall bsnode, In bsnode (get_children (Some "batch_system") None None) ->
                  get_children (Some "queues") None (Some bsnode) = []) ->
  (forall bsnode, In bsnode (get_children (Some "batch_system") None None) ->
                  get_optional_child "queues" None (Some bsnode) = Ok None) ->
  get_all_queues = Ok []
  /\ get_default_queue = Err (CIMEError "No queues found")
  /\ _get_all_queue_names = Err (CIMEError "No queues found")
  /\ select_best_queue num_nodes num_tasks walltime job
     = Err (CIMEError "No queues found").
Proof.
  intros Hchildren Hoptional.
  assert (Hall : get_all_queues = Ok []).
  { unfold get_all_queues. apply get_all_queues_from_none. exact Hoptional. }
  assert (Hdefault : get_default_queue = Err (CIMEError "No queues found")).
  { unfold get_default_queue. rewrite default_over_none by exact Hchildren.
    reflexivity. }
  assert (Hnames : _get_all_queue_names = Err (CIMEError "No queues found")).
  { unfold _get_all_queue_names. rewrite Hall, Hdefault. reflexivity. }
  repeat split; try assumption.
  unfold select_best_queue. rewrite Hnames. reflexivity.
Qed.

(** X4: [select_best_queue] stops at the first queue whose specification
    cannot be read: when every name before it fails the request, the
    selection raises what reading that queue raises, whatever follows. *)
Theorem select_best_queue_raises (before after : list string) (bad : string) (e : exn)
    (num_nodes num_tasks : Z) (walltime job : option string) :
  _get_all_queue_names = Ok (before ++ bad :: after) ->
  Forall (fun p => queue_meets_spec p num_nodes num_tasks walltime job = Ok false) before ->
  get_queue_specs bad = Err e ->
  select_best_queue num_nodes num_tasks walltime job = Err e.
Proof.
  intros Hnames Hbefore Hbad.
  unfold select_best_queue. rewrite Hnames. simpl. clear Hnames.
  induction Hbefore as [|p rest Hp _ IH]; simpl.
  - unfold queue_meets_spec. rewrite Hbad. reflexivity.
  - rewrite Hp. simpl. exact IH.
Qed.

End ResolverMore.

(** ** JobDefaultsPlanner *)

Section JobDefaultsFacts.
Context {node : Type} {X : GenericXML node} {U : Utils}.




(** X7: the queue [set_job_defaults] stores passes the test [set_value]
    makes on a queue name: either the queue is one of the names of the
    file, or the catalog does not know it and it is stored with
    [ignore_type]. *)
Theorem job_defaults_pass_guard (force_queue walltime0 : option string)
    (node_count task_count : Z) (job : string) (test : bool)
    (queue walltime : string) (ignore_type : bool) (names : list string) :
  job_defaults force_queue walltime0 node_count task_count job test
  = Ok (queue, walltime, ignore_type) ->
  _get_all_queue_names = Ok names ->
  job_queue_guard queue ignore_type = Ok tt
  /\ (ignore_type = false -> In queue names)
  /\ (ignore_type = true -> get_queue_specs queue = Ok None).
Proof.
  unfold job_defaults. intros H Hnames.
  destruct (choose_queue force_queue walltime0 node_count task_count job test)
    as [[q w0]|e]; cbn [rbind fst snd] in H; [| discriminate].
  destruct (get_queue_specs q) as [specs|e] eqn:Hspecs; cbn [rbind] in H; [| discriminate].
  assert (Hout : queue = q /\ ignore_type = negb (is_Some_b specs)).
  { destruct w0 as [w1|]; cbn [rbind] in H.
    - inversion H; auto.
    - destruct specs as [sp|]; cbn [rbind] in H.
      + inversion H; auto.
      + destruct get_default_queue; cbn [rbind] in H; inversion H; auto. }
  destruct Hout as [-> ->]. clear H.
  assert (Hin : is_Some_b specs = true -> In q names).
  { destruct specs as [sp|]; [intros _ | discriminate].
    unfold get_queue_specs in Hspecs. unfold _get_all_queue_names in Hnames.
    destruct get_all_queues as [all|e]; cbn [rbind] in *; [| discriminate].
    apply find_queue_specs_named in Hspecs. destruct Hspecs as (n & Hn & Htext).
    destruct get_default_queue as [d|e]; cbn [rbind] in Hnames; [| discriminate].
    inversion Hnames; subst names. right. rewrite <- Htext.
    apply in_map. exact Hn. }
  split; [| split].
  - unfold job_queue_guard. rewrite Hnames. cbn [rbind].
    destruct specs as [sp|]; cbn [is_Some_b negb].
    + specialize (Hin eq_refl).
      assert (Hex : existsb (String.eqb q) names = true).
      { apply existsb_exists. exists q. split; [exact Hin | apply String.eqb_refl]. }
      rewrite Hex. reflexivity.
    + rewrite orb_true_r. reflexivity.
  - intros Hig. apply Hin. destruct (is_Some_b specs); [reflexivity | discriminate].
  - intros Hig. destruct specs; [discriminate | exact Hspecs].
Qed.

(** X8: [get_batch_system_type] takes the type of the last [batch_system]
    element that has one, whatever was set before; when no element has a
    type it keeps what was set. *)
Theorem get_batch_system_type_last (self : EnvBatch) (before after : list node)
    (bsnode : node) (type_ : string) :
  get_children (Some "batch_system") None None = before ++ bsnode :: after ->
  get bsnode "type" = Some type_ ->
  Forall (fun n => get n "type" = None) after ->
  _batchtype (get_batch_system_type self) = Some type_
  /\ forall batchtype,
       get_batch_system_type (set_batch_system_type self batchtype)
       = get_batch_system_type self.
Proof.
  intros Hnodes Htype Hafter.
  assert (Hfold : forall s,
            fold_left (fun (s : EnvBatch) (n : node) =>
                         match get n "type" with
                         | Some t => {| _batchtype := Some t |}
                         | None => s
                         end) (before ++ bsnode :: after) s
            = {| _batchtype := Some type_ |}).
  { intros s. rewrite fold_left_app. cbn [fold_left]. rewrite Htype.
    clear Hnodes. induction Hafter as [|n rest Hn _ IH]; cbn [fold_left].
    - reflexivity.
    - rewrite Hn. exact IH. }
  unfold get_batch_system_type. rewrite Hnodes. split.
  - rewrite Hfold. reflexivity.
  - intros batchtype. rewrite !Hfold. reflexivity.
Qed.

End JobDefaultsFacts.

(** ** Further properties of the submission *)

Section KeepsWorld.
Context {ext : Type}.

Lemma keeps_world_ret {A : Type} (a : A) : keeps_world (ret (ext := ext) a).
Proof. intros st. reflexivity. Qed.

Lemma keeps_world_raise {A : Type} (e : exn) : keeps_world (raise (ext := ext) (A := A) e).
Proof. intros st. reflexivity. Qed.

Lemma keeps_world_lift {A : Type} (r : result A) : keeps_world (lift (ext := ext) r).
Proof. intros st. reflexivity. Qed.

Lemma keeps_world_ask {A : Type} (f : world ext -> result A) : keeps_world (ask f).
Proof. intros st. reflexivity. Qed.

Lemma keeps_world_emit (e : event) : keeps_world (emit (ext := ext) e).
Proof. intros st. reflexivity. Qed.

End KeepsWorld.

Ltac keeps :=
  repeat first
    [ apply keeps_world_ret | apply keeps_world_raise | apply keeps_world_lift
    | apply keeps_world_ask | apply keeps_world_emit
    | apply keeps_world_bind; [| intro]
    | match goal with
      | |- keeps_world (match ?x with _ => _ end) => destruct x
      end
    | progress cbv zeta ].

Section DryRunFacts.
Context {node ext : Type} {X : GenericXML node} {U : Utils} {R : Runtime ext}.

Lemma dependency_clause_keeps (allow_fail : bool) (d0 : string) (ds : list string)
    (submitargs : string) :
  keeps_world (dependency_clause (ext := ext) allow_fail d0 ds submitargs).
Proof. unfold dependency_clause. keeps. Qed.

Lemma _submit_single_job_dry_run (self : EnvBatch) (job : string)
    (dep_jobs : option (list string)) (allow_fail no_batch skip_pnl : bool)
    (mail_user : option string) (mail_type : option (list string))
    (batch_args : option string) (resubmit_immediate : bool) :
  keeps_world
    (_submit_single_job self job dep_jobs allow_fail no_batch skip_pnl mail_user
       mail_type batch_args true resubmit_immediate).
Proof.
  unfold _submit_single_job. keeps; apply dependency_clause_keeps.
Qed.

Section OneCall.
Variables (self : EnvBatch) (alljobs : list string).
Variables (no_batch : bool) (user_prereq : option string) (skip_pnl allow_fail : bool).
Variables (resubmit_immediate : bool) (mail_user : option string).
Variables (mail_type : option (list string)) (batch_args : option string).

Lemma submit_round_dry_run (jobs : list (string * option string)) :
  forall (prev_job : option string) (v : loop_vars),
    keeps_world
      (submit_round (ext := ext) self alljobs no_batch user_prereq skip_pnl allow_fail
         resubmit_immediate mail_user mail_type batch_args true jobs prev_job v).
Proof.
  induction jobs as [|[job dependency] rest IH]; intros prev_job v; cbn [submit_round].
  - apply keeps_world_ret.
  - apply keeps_world_bind; [apply keeps_world_emit | intros _].
    apply keeps_world_bind; [apply _submit_single_job_dry_run | intros result].
    apply keeps_world_bind.
    + destruct (Py.index job alljobs); [apply keeps_world_ret | apply keeps_world_raise].
    + intros id. destruct (is_cobalt self); [apply keeps_world_ret | apply IH].
Qed.

Lemma submit_rounds_dry_run (num_submit : nat) (jobs : list (string * option string)) :
  forall (prev_job : option string) (v : loop_vars),
    keeps_world
      (submit_rounds (ext := ext) self alljobs no_batch user_prereq skip_pnl allow_fail
         resubmit_immediate mail_user mail_type batch_args true num_submit jobs prev_job v).
Proof.
  induction num_submit as [|more IH]; intros prev_job v; cbn [submit_rounds].
  - apply keeps_world_ret.
  - apply keeps_world_bind; [apply submit_round_dry_run | intros v'].
    destruct (batch_job_id v'); [apply IH | apply keeps_world_raise].
Qed.

End OneCall.

(** X9: a dry run runs nothing.  [_submit_single_job] leaves the case and
    the outside as they are, in batch mode and without a batch system;
    [submit_jobs] changes nothing but the counter of the case, which it
    clears when an immediate resubmission is asked for, and what it returns
    is the list of commands. *)
Theorem dry_run_runs_nothing (self : EnvBatch) (no_batch : bool)
    (job user_prereq : option string) (skip_pnl allow_fail resubmit_immediate : bool)
    (mail_user : option string) (mail_type : option (list string))
    (batch_args : option string) (st : state ext) :
  (forall (name : string) (dep_jobs : option (list string)) (s : state ext),
     the_world (snd (_submit_single_job self name dep_jobs allow_fail no_batch skip_pnl
                       mail_user mail_type batch_args true resubmit_immediate s))
     = the_world s)
  /\ let run := submit_jobs self no_batch job user_prereq skip_pnl allow_fail
                  resubmit_immediate mail_user mail_type batch_args true st in
     outside (the_world (snd run)) = outside (the_world st)
     /\ (resubmit_immediate = false -> the_world (snd run) = the_world st)
     /\ (RESUBMIT (the_world (snd run)) = RESUBMIT (the_world st)
         \/ resubmit_immediate = true /\ RESUBMIT (the_world (snd run)) = 0%Z)
     /\ (forall r, fst run = Ok r -> exists cmds, r = JobCmds cmds).
Proof.
  split; [intros; apply _submit_single_job_dry_run |].
  intros run. subst run. unfold submit_jobs, bind.
  pose proof (proj2 (eligible_jobs_frame self job true) st) as Hjobs.
  destruct (eligible_jobs self job true st) as [[jobs|e] st1]; simpl in Hjobs.
  2: { simpl. rewrite Hjobs. repeat split; auto. discriminate. }
  assert (Hplan : exists n st2,
             plan_num_submit resubmit_immediate st1 = (Ok n, st2)
             /\ outside (the_world st2) = outside (the_world st)
             /\ (resubmit_immediate = false -> the_world st2 = the_world st)
             /\ (RESUBMIT (the_world st2) = RESUBMIT (the_world st)
                 \/ resubmit_immediate = true /\ RESUBMIT (the_world st2) = 0%Z)).
  { unfold plan_num_submit. rewrite Hjobs.
    destruct resubmit_immediate.
    - destruct (RESUBMIT (the_world st) + 1 <=? 0)%Z; eexists _, _;
        (split; [reflexivity |]); simpl; repeat split; auto; discriminate.
    - eexists _, _. split; [reflexivity |]. rewrite Hjobs. auto. }
  destruct Hplan as (n & st2 & -> & Hout & Hsame & Hcounter).
  pose proof (submit_rounds_dry_run self get_jobs no_batch user_prereq skip_pnl
                allow_fail resubmit_immediate mail_user mail_type batch_args
                (Z.to_nat n) jobs None fresh_vars st2) as Hrounds.
  destruct (submit_rounds _ _ _ _ _ _ _ _ _ _ _ _ _ _ _ _) as [[v|e] st3];
    simpl in Hrounds |- *; rewrite Hrounds; repeat split; auto.
  - intros r Hr. inversion Hr. eauto.
  - discriminate.
Qed.

End DryRunFacts.

Section RoundsMore.
Context {node ext : Type} {X : GenericXML node} {U : Utils} {R : Runtime ext}.

Lemma round_plan_names (user_prereq : option string) (jobs : list (string * option string)) :
  forall (ids : list (option string)) (prev_job : option string)
         (dm : gmap string (option string)),
    length ids = length jobs ->
    map fst (fst (round_plan user_prereq jobs ids prev_job dm)) = map fst jobs.
Proof.
  induction jobs as [|[job dependency] rest IH]; intros ids prev_job dm Hlen.
  - destruct ids; reflexivity.
  - destruct ids as [|id ids]; [discriminate |]. cbn [round_plan].
    specialize (IH ids prev_job (<[job := id]> dm)).
    destruct (round_plan user_prereq rest ids prev_job (<[job := id]> dm)).
    cbn [fst map] in *. rewrite IH; [reflexivity | simpl in Hlen; congruence].
Qed.

Lemma round_plan_ends (user_prereq : option string) (p : string)
    (jobs : list (string * option string)) :
  forall (ids : list (option string)) (dm : gmap string (option string)),
    Forall (ends_with p) (fst (round_plan user_prereq jobs ids (Some p) dm)).
Proof.
  induction jobs as [|[job dependency] rest IH]; intros ids dm; cbn [round_plan].
  - constructor.
  - destruct ids as [|id ids]; [constructor |].
    specialize (IH ids (<[job := id]> dm)).
    destruct (round_plan user_prereq rest ids (Some p) (<[job := id]> dm)).
    cbn [fst] in *. constructor; [| exact IH].
    unfold ends_with, dep_jobs_of. cbn [snd].
    rewrite app_assoc. apply last_snoc.
Qed.

Lemma last_assigned_last (ids : list (option string)) (before : option (option string)) :
  ids <> [] -> last_assigned ids before = last ids.
Proof.
  unfold last_assigned. revert before.
  induction ids as [|id rest IH]; intros before Hne; [contradiction |].
  cbn [fold_left]. destruct rest as [|id' rest'].
  - reflexivity.
  - rewrite IH by discriminate. reflexivity.
Qed.

Section OneCall.
Variables (self : EnvBatch) (alljobs : list string).
Variables (no_batch : bool) (user_prereq : option string) (skip_pnl allow_fail : bool).
Variables (resubmit_immediate : bool) (mail_user : option string).
Variables (mail_type : option (list string)) (batch_args : option string).
Variable dry_run : bool.

Let round := submit_round (ext := ext) self alljobs no_batch user_prereq skip_pnl
               allow_fail resubmit_immediate mail_user mail_type batch_args dry_run.
Let rounds := submit_rounds (ext := ext) self alljobs no_batch user_prereq skip_pnl
                allow_fail resubmit_immediate mail_user mail_type batch_args dry_run.

(** X10: two rounds.  The first round is planned without a previous job;
    the second is planned from the identifiers of the first, and when the
    last job of the first round got an identifier, the dependency list of
    every job of the second round ends with it. *)
Theorem second_round_waits_for_first (jobs : list (string * option string))
    (v0 v : loop_vars) (st st' : state ext) :
  is_cobalt self = false ->
  jobs <> [] ->
  rounds 2 jobs None v0 st = (Ok v, st') ->
  exists ids1 ids2 evs1 evs2 dm1 last_id,
    log st' = (log st ++ evs1) ++ evs2
    /\ length ids1 = length jobs /\ length ids2 = length jobs
    /\ last ids1 = Some last_id
    /\ round_plan user_prereq jobs ids1 None (depid v0) = (dep_events evs1, dm1)
    /\ round_plan user_prereq jobs ids2 last_id dm1 = (dep_events evs2, depid v)
    /\ map fst (dep_events evs1) = map fst jobs
    /\ map fst (dep_events evs2) = map fst jobs
    /\ (forall p, last_id = Some p -> Forall (ends_with p) (dep_events evs2)).
Proof.
  intros Hcobalt Hjobs Hrun. subst rounds. cbn [submit_rounds] in Hrun.
  apply bind_Ok in Hrun. destruct Hrun as (v1 & st1 & Hround1 & Hrun).
  pose proof Hround1 as Htrace1.
  eapply round_trace in Htrace1; [| exact Hcobalt].
  destruct Htrace1 as (ids1 & evs1 & Hlen1 & Hlog1 & Hplan1 & Hlast1).
  assert (Hne : ids1 <> []).
  { intros ->. destruct jobs; [contradiction | discriminate]. }
  rewrite last_assigned_last in Hlast1 by exact Hne.
  destruct (batch_job_id v1) as [last_id|] eqn:Hid; [| discriminate].
  apply bind_Ok in Hrun. destruct Hrun as (v2 & st2 & Hround2 & Hrun).
  pose proof Hround2 as Htrace2.
  eapply round_trace in Htrace2; [| exact Hcobalt].
  destruct Htrace2 as (ids2 & evs2 & Hlen2 & Hlog2 & Hplan2 & _).
  destruct (batch_job_id v2); [| discriminate].
  unfold ret in Hrun. inversion Hrun; subst v2 st2.
  exists ids1, ids2, evs1, evs2, (depid v1), last_id.
  split; [rewrite Hlog2, Hlog1; reflexivity |].
  split; [exact Hlen1 |]. split; [exact Hlen2 |].
  split; [symmetry; exact Hlast1 |].
  split; [exact Hplan1 |]. split; [exact Hplan2 |].
  split.
  { pose proof (round_plan_names user_prereq jobs ids1 None (depid v0) Hlen1) as H.
    rewrite Hplan1 in H. exact H. }
  split.
  { pose proof (round_plan_names user_prereq jobs ids2 last_id (depid v1) Hlen2) as H.
    rewrite Hplan2 in H. exact H. }
  intros p ->.
  pose proof (round_plan_ends user_prereq p jobs ids2 (depid v1)) as H.
  rewrite Hplan2 in H. exact H.
Qed.

(** On a Cobalt system a round stops after its first job. *)
Lemma rounds_cobalt (job : string) (dependency : option string)
    (rest : list (string * option string)) (num_submit : nat) :
  is_cobalt self = true ->
  forall (prev_job : option string) (v v' : loop_vars) (st st' : state ext),
    rounds num_submit ((job, dependency) :: rest) prev_job v st = (Ok v', st') ->
    exists evs,
      log st' = log st ++ evs
      /\ map fst (dep_events evs) = repeat job num_submit.
Proof.
  intros Hcobalt.
  induction num_submit as [|more IH]; intros prev_job v v' st st' Hrun;
    subst rounds; cbn [submit_rounds] in Hrun.
  - inversion Hrun; subst. exists []. rewrite app_nil_r. auto.
  - apply bind_Ok in Hrun. destruct Hrun as (v1 & st1 & Hround & Hrun).
    apply round_step in Hround.
    destruct Hround as (result & id & st0 & evs1 & _ & Hlog1 & Hevs1 & _ & Hrest).
    rewrite Hcobalt in Hrest. inversion Hrest; subst v1 st1. cbn [batch_job_id] in Hrun.
    apply IH in Hrun. destruct Hrun as (evs2 & Hlog2 & Hnames).
    exists (([Debug_depends job (dep_jobs_of user_prereq dependency (depid v) prev_job)]
             ++ evs1) ++ evs2).
    split; [rewrite Hlog2, Hlog1; rewrite <- !app_assoc; reflexivity |].
    rewrite !dep_events_app, (dep_events_quiet Hevs1), app_nil_r, map_app, Hnames.
    reflexivity.
Qed.

End OneCall.

Lemma eligible_from_cobalt (self : EnvBatch) (dry_run : bool) (firstjob : option string)
    (startindex : nat) (remaining : list string) :
  is_cobalt self = true ->
  forall (index : nat) (jobs0 jobs : list (string * option string)) (st st' : state ext),
    eligible_from self dry_run firstjob startindex index remaining jobs0 st = (Ok jobs, st') ->
    jobs = jobs0 \/ exists entry, jobs = jobs0 ++ [entry].
Proof.
  intros Hcobalt.
  induction remaining as [|job rest IH]; intros index jobs0 jobs st st' Hrun;
    cbn [eligible_from] in Hrun.
  - inversion Hrun; subst. left. reflexivity.
  - apply bind_Ok in Hrun. destruct Hrun as ([] & st0 & _ & Hrun).
    destruct (index <? startindex)%nat; [exact (IH _ _ _ _ _ Hrun) |].
    apply bind_Ok in Hrun. destruct Hrun as (prereq & st1 & _ & Hrun).
    apply bind_Ok in Hrun. destruct Hrun as (jobs1 & st2 & Hadd & Hrun).
    rewrite Hcobalt in Hrun. inversion Hrun; subst jobs st'.
    destruct prereq.
    + apply bind_Ok in Hadd. destruct Hadd as (dep & st3 & _ & Hadd).
      inversion Hadd; subst. right. eauto.
    + inversion Hadd; subst. left. reflexivity.
Qed.

(** X11: on a Cobalt system at most one job is chosen, and when
    [submit_jobs] succeeds it has submitted that one job once per round. *)
Theorem cobalt_single_job (self : EnvBatch) (no_batch : bool)
    (job user_prereq : option string) (skip_pnl allow_fail resubmit_immediate : bool)
    (mail_user : option string) (mail_type : option (list string))
    (batch_args : option string) (dry_run : bool)
    (jobs : list (string * option string)) (st st1 : state ext) :
  is_cobalt self = true ->
  eligible_jobs self job dry_run st = (Ok jobs, st1) ->
  (length jobs <= 1)%nat
  /\ forall r st',
       submit_jobs self no_batch job user_prereq skip_pnl allow_fail resubmit_immediate
         mail_user mail_type batch_args dry_run st = (Ok r, st') ->
       exists name dependency evs st2 num_submit,
         jobs = [(name, dependency)]
         /\ plan_num_submit resubmit_immediate st1 = (Ok num_submit, st2)
         /\ log st' = log st1 ++ evs
         /\ map fst (dep_events evs) = repeat name (Z.to_nat num_submit).
Proof.
  intros Hcobalt Hjobs.
  assert (Hlen : jobs = [] \/ exists entry, jobs = [entry]).
  { unfold eligible_jobs in Hjobs.
    apply bind_Ok in Hjobs. destruct Hjobs as (startindex & st0 & _ & Hfrom).
    apply (eligible_from_cobalt _ _ _ _ _ Hcobalt) in Hfrom. exact Hfrom. }
  split; [destruct Hlen as [-> | [entry ->]]; simpl; lia |].
  intros r st' Hok.
  rewrite (@submit_jobs_unfold _ _ _ _ _ self no_batch job user_prereq skip_pnl allow_fail
             mail_user mail_type batch_args resubmit_immediate dry_run jobs st st1 Hjobs)
    in Hok.
  destruct (plan_num_submit resubmit_immediate st1) as [[num_submit|e] st2] eqn:Hplan;
    [| discriminate].
  assert (Hlog2 : log st2 = log st1 /\ (1 <= num_submit)%Z).
  { unfold plan_num_submit in Hplan.
    destruct resubmit_immediate;
      [destruct (RESUBMIT (the_world st1) + 1 <=? 0)%Z eqn:Hle |];
      inversion Hplan; subst; split; try reflexivity; try lia;
      apply Z.leb_gt in Hle; lia. }
  destruct Hlog2 as [Hlog2 Hpos].
  destruct (submit_rounds _ _ _ _ _ _ _ _ _ _ _ _ _ _ _ _) as [[v|e] st3] eqn:Hrounds;
    [| discriminate].
  inversion Hok; subst st3.
  destruct Hlen as [-> | [[name dependency] ->]].
  - exfalso. destruct (Z.to_nat num_submit) as [|m] eqn:Hn; [lia |].
    cbn [submit_rounds submit_round] in Hrounds. unfold bind, ret in Hrounds.
    cbn in Hrounds. discriminate.
  - eapply rounds_cobalt in Hrounds; [| exact Hcobalt].
    destruct Hrounds as (evs & Hlog & Hnames).
    exists name, dependency, evs, st2, num_submit.
    repeat split; try assumption. rewrite Hlog, Hlog2. reflexivity.
Qed.

End RoundsMore.

Section EligibilityFacts.
Context {node ext : Type} {X : GenericXML node} {U : Utils} {R : Runtime ext}.

Lemma index_absent (x : string) (l : list string) :
  ~ In x l -> Py.index x l = None.
Proof.
  induction l as [|y l IH]; intros Hx; cbn [Py.index]; [reflexivity |].
  destruct (String.eqb y x) eqn:Hy.
  - exfalso. apply Hx. left. apply String.eqb_eq. exact Hy.
  - rewrite IH; [reflexivity |]. intros Hin. apply Hx. right. exact Hin.
Qed.

Lemma index_nth (x : string) (l : list string) (i : nat) :
  Py.index x l = Some i -> nth_error l i = Some x.
Proof.
  revert i. induction l as [|y l IH]; intros i; cbn [Py.index]; [discriminate |].
  destruct (String.eqb y x) eqn:Hy.
  - intros H. inversion H; subst. apply String.eqb_eq in Hy. subst. reflexivity.
  - destruct (Py.index x l) as [k|]; cbn [option_map]; [| discriminate].
    intros H. inversion H; subst. cbn [nth_error]. apply IH. reflexivity.
Qed.

(** X12: what the [try] block around the prerequisite does.  A job
    without [prereq], the starting job, and on a dry run a job whose
    [prereq] is $BUILD_COMPLETE are taken without evaluating anything; when
    resolving or evaluating the expression raises, the failure is the one of
    line 439, which names the resolved [prereq] value and the job. *)
Theorem prereq_holds_cases (dry_run : bool) (firstjob : option string) (job : string)
    (st : state ext) (prereq : option string) :
  get_value "prereq" None false (Some job) = Ok prereq ->
  let exempt :=
    match prereq with
    | None => true
    | Some expr =>
        match firstjob with Some f => String.eqb job f | None => false end
        || dry_run && String.eqb expr "$BUILD_COMPLETE"
    end in
  (exempt = true -> prereq_holds dry_run firstjob job st = (Ok true, st))
  /\ (forall expr shown,
        exempt = false -> prereq = Some expr ->
        (forall resolved, case_get_resolved_value expr (the_world st) = Ok resolved ->
                          is_ok (eval_truth resolved) = false) ->
        get_value "prereq" None true (Some job) = Ok shown ->
        prereq_holds dry_run firstjob job st
        = (Err (CIMEError ("Unable to evaluate prereq expression '"
                           +:+ str_of_opt shown +:+ "' for job '" +:+ job +:+ "'")), st)).
Proof.
  intros Hprereq exempt. subst exempt. unfold prereq_holds. rewrite Hprereq.
  cbn [rbind]. split.
  - destruct prereq as [expr|]; [| reflexivity]. intros ->. reflexivity.
  - intros expr shown Hexempt -> Hfails Hshown. rewrite Hexempt, Hshown.
    destruct (case_get_resolved_value expr (the_world st)) as [resolved|e] eqn:Hres;
      cbn [rbind]; [| reflexivity].
    specialize (Hfails resolved eq_refl).
    destruct (eval_truth resolved); [discriminate | reflexivity].
Qed.

Lemma prereq_holds_first (dry_run : bool) (job : string) (b : bool) (st st' : state ext) :
  prereq_holds dry_run (Some job) job st = (Ok b, st') -> b = true.
Proof.
  unfold prereq_holds. rewrite String.eqb_refl. cbn [orb].
  destruct (get_value "prereq" None false (Some job)) as [[expr|]|e]; cbn [rbind].
  - intros H. inversion H. reflexivity.
  - intros H. inversion H. reflexivity.
  - destruct (get_value "prereq" None true (Some job)); discriminate.
Qed.

Lemma eligible_from_shape (self : EnvBatch) (dry_run : bool) (firstjob : option string)
    (startindex : nat) (remaining : list string) :
  forall (index : nat) (jobs0 jobs : list (string * option string)) (st st' : state ext),
    eligible_from self dry_run firstjob startindex index remaining jobs0 st = (Ok jobs, st') ->
    exists extra,
      jobs = jobs0 ++ extra
      /\ sublist (map fst extra) (drop (startindex - index) remaining)
      /\ Forall (fun jd => get_value "dependency" None true (Some (fst jd)) = Ok (snd jd))
                extra.
Proof.
  induction remaining as [|job rest IH]; intros index jobs0 jobs st st' Hrun;
    cbn [eligible_from] in Hrun.
  - inversion Hrun; subst. exists []. rewrite app_nil_r, drop_nil.
    repeat split; constructor.
  - apply bind_Ok in Hrun. destruct Hrun as ([] & st0 & _ & Hrun).
    destruct (index <? startindex)%nat eqn:Hlt.
    + apply Nat.ltb_lt in Hlt. apply IH in Hrun.
      destruct Hrun as (extra & -> & Hsub & Hdeps). exists extra.
      replace (startindex - index)%nat with (S (startindex - S index)) by lia.
      auto.
    + apply Nat.ltb_ge in Hlt.
      replace (startindex - index)%nat with O by lia. cbn [drop].
      apply bind_Ok in Hrun. destruct Hrun as (prereq & st1 & _ & Hrun).
      apply bind_Ok in Hrun. destruct Hrun as (jobs1 & st2 & Hadd & Hrun).
      assert (Hone : jobs1 = jobs0
                     \/ exists dep, jobs1 = jobs0 ++ [(job, dep)]
                                    /\ get_value "dependency" None true (Some job) = Ok dep).
      { destruct prereq.
        - apply bind_Ok in Hadd. destruct Hadd as (dep & st3 & Hdep & Hadd).
          unfold lift in Hdep. inversion Hdep. inversion Hadd. right. eauto.
        - inversion Hadd. left. reflexivity. }
      assert (Hrest : exists extra,
                 jobs = jobs1 ++ extra /\ sublist (map fst extra) rest
                 /\ Forall (fun jd => get_value "dependency" None true (Some (fst jd))
                                      = Ok (snd jd)) extra).
      { destruct (is_cobalt self).
        - inversion Hrun; subst. exists []. rewrite app_nil_r.
          repeat split; [apply sublist_nil_l | constructor].
        - apply IH in Hrun. destruct Hrun as (extra & -> & Hsub & Hdeps).
          replace (startindex - S index)%nat with O in Hsub by lia.
          exists extra. auto. }
      destruct Hrest as (extra & -> & Hsub & Hdeps).
      destruct Hone as [-> | (dep & -> & Hdep)].
      * exists extra. repeat split; [apply sublist_cons; exact Hsub | exact Hdeps].
      * exists ((job, dep) :: extra). rewrite <- app_assoc.
        repeat split; [apply sublist_skip; exact Hsub | constructor; assumption].
Qed.

Lemma eligible_from_start (self : EnvBatch) (dry_run : bool) (j : string)
    (startindex : nat) (remaining : list string) :
  forall (index : nat) (jobs0 jobs : list (string * option string)) (st st' : state ext),
    (index <= startindex)%nat ->
    nth_error remaining (startindex - index) = Some j ->
    eligible_from self dry_run (Some j) startindex index remaining jobs0 st = (Ok jobs, st') ->
    exists dep rest, jobs = jobs0 ++ (j, dep) :: rest.
Proof.
  induction remaining as [|job rest IH]; intros index jobs0 jobs st st' Hle Hnth Hrun.
  - destruct (startindex - index)%nat; discriminate.
  - cbn [eligible_from] in Hrun.
    apply bind_Ok in Hrun. destruct Hrun as ([] & st0 & _ & Hrun).
    destruct (index <? startindex)%nat eqn:Hlt.
    + apply Nat.ltb_lt in Hlt.
      replace (startindex - index)%nat with (S (startindex - S index)) in Hnth by lia.
      cbn [nth_error] in Hnth. eapply IH; [| exact Hnth | exact Hrun]. lia.
    + apply Nat.ltb_ge in Hlt.
      replace (startindex - index)%nat with O in Hnth by lia.
      cbn [nth_error] in Hnth. inversion Hnth; subst job.
      apply bind_Ok in Hrun. destruct Hrun as (prereq & st1 & Hprereq & Hrun).
      apply prereq_holds_first in Hprereq. subst prereq.
      apply bind_Ok in Hrun. destruct Hrun as (jobs1 & st2 & Hadd & Hrun).
      apply bind_Ok in Hadd. destruct Hadd as (dep & st3 & _ & Hadd).
      inversion Hadd; subst jobs1 st3.
      destruct (is_cobalt self).
      * inversion Hrun; subst. exists dep, []. reflexivity.
      * apply eligible_from_shape in Hrun. destruct Hrun as (extra & -> & _).
        exists dep, extra. rewrite <- app_assoc. reflexivity.
Qed.

(** X13: with a starting job, the jobs that stand before it are left out
    and the starting job itself is always chosen, whatever its [prereq]
    says; the jobs chosen keep the order of the file, and each carries its
    own [dependency] value. *)
Theorem start_job_first (self : EnvBatch) (dry_run : bool) (j : string) (i : nat)
    (jobs : list (string * option string)) (st st1 : state ext) :
  Py.index j get_jobs = Some i ->
  eligible_jobs self (Some j) dry_run st = (Ok jobs, st1) ->
  (exists dep rest, jobs = (j, dep) :: rest)
  /\ sublist (map fst jobs) (drop i get_jobs)
  /\ Forall (fun jd => get_value "dependency" None true (Some (fst jd)) = Ok (snd jd)) jobs.
Proof.
  intros Hindex Hrun. unfold eligible_jobs in Hrun. rewrite Hindex in Hrun.
  unfold bind, ret in Hrun. cbn [fst snd] in Hrun.
  split.
  - eapply eligible_from_start in Hrun; [| lia | rewrite Nat.sub_0_r; apply index_nth; exact Hindex].
    destruct Hrun as (dep & rest & ->). eauto.
  - apply eligible_from_shape in Hrun. destruct Hrun as (extra & -> & Hsub & Hdeps).
    rewrite Nat.sub_0_r in Hsub. auto.
Qed.

(** X14: a failure while the jobs are chosen ends [submit_jobs] before
    anything is submitted and before the counter of the case is read: the
    case and the outside are as before and no job has been reported.  A
    starting job the file does not know is such a failure. *)
Theorem planning_failure_submits_nothing (self : EnvBatch) (no_batch : bool)
    (job user_prereq : option string) (skip_pnl allow_fail resubmit_immediate : bool)
    (mail_user : option string) (mail_type : option (list string))
    (batch_args : option string) (dry_run : bool) (st : state ext) :
  (forall e st1,
     eligible_jobs self job dry_run st = (Err e, st1) ->
     submit_jobs self no_batch job user_prereq skip_pnl allow_fail resubmit_immediate
       mail_user mail_type batch_args dry_run st = (Err e, st1)
     /\ the_world st1 = the_world st
     /\ dep_events (log st1) = dep_events (log st))
  /\ (forall j,
        job = Some j -> ~ In j get_jobs ->
        submit_jobs self no_batch job user_prereq skip_pnl allow_fail resubmit_immediate
          mail_user mail_type batch_args dry_run st
        = (Err (CIMEError ("Do not know about batch job " +:+ j)), st)).
Proof.
  split.
  - intros e st1 Hfail.
    split; [unfold submit_jobs, bind; rewrite Hfail; reflexivity |].
    destruct (eligible_jobs_frame self job dry_run) as [Hemits Hkeeps].
    specialize (Hemits st). specialize (Hkeeps st). rewrite Hfail in Hemits, Hkeeps.
    split; [exact Hkeeps |].
    destruct Hemits as (evs & Hlog & Hevs). cbn [snd] in Hlog.
    rewrite Hlog, dep_events_app.
    assert (Hquiet : dep_events evs = []).
    { clear Hlog. induction Hevs as [|ev evs Hev _ IH]; [reflexivity |].
      destruct ev; simpl in Hev; try contradiction. exact IH. }
    rewrite Hquiet. apply app_nil_r.
  - intros j -> Hunknown.
    unfold submit_jobs, eligible_jobs, bind, raise.
    rewrite (index_absent _ _ Hunknown). reflexivity.
Qed.

(** X15: when no job is chosen, [submit_jobs] does not return an empty
    result: the round ends by reading an identifier that was never
    assigned, which raises.  Nothing has been reported, but on an immediate
    resubmission the counter of the case is already cleared. *)
Theorem nothing_eligible_raises (self : EnvBatch) (no_batch : bool)
    (job user_prereq : option string) (skip_pnl allow_fail resubmit_immediate : bool)
    (mail_user : option string) (mail_type : option (list string))
    (batch_args : option string) (dry_run : bool) (st st1 : state ext) :
  eligible_jobs self job dry_run st = (Ok [], st1) ->
  let run := submit_jobs self no_batch job user_prereq skip_pnl allow_fail
               resubmit_immediate mail_user mail_type batch_args dry_run st in
  fst run = Err UnboundLocalError
  /\ log (snd run) = log st1
  /\ (resubmit_immediate = true -> RESUBMIT (the_world (snd run)) = 0%Z).
Proof.
  intros Hjobs run. subst run.
  rewrite (@submit_jobs_unfold _ _ _ _ _ self no_batch job user_prereq skip_pnl allow_fail
             mail_user mail_type batch_args resubmit_immediate dry_run [] st st1 Hjobs).
  unfold plan_num_submit.
  assert (Hround : forall n (s : state ext),
            (1 <= n)%Z ->
            submit_rounds self get_jobs no_batch user_prereq skip_pnl allow_fail
              resubmit_immediate mail_user mail_type batch_args dry_run
              (Z.to_nat n) [] None fresh_vars s
            = (Err UnboundLocalError, s)).
  { intros n s Hn. destruct (Z.to_nat n) as [|m] eqn:Hm; [lia | reflexivity]. }
  destruct resubmit_immediate.
  - destruct (RESUBMIT (the_world st1) + 1 <=? 0)%Z eqn:Hle.
    + rewrite Hround by lia. auto.
    + apply Z.leb_gt in Hle. rewrite Hround by lia. auto.
  - rewrite Hround by lia. repeat split. discriminate.
Qed.

End EligibilityFacts.

(** ** Run arguments and mail flags *)

(** X16: the arguments handed to a job script are a whitelist per job.
    [_build_run_args] keeps an argument only when it is passed with a true
    value and the job supports it; [skip_pnl] is supported by case.run and
    case.test only, [set_continue_run] by case.run only, and the resubmit
    flag by case.run and case.st_archive only, under the name [resubmit]
    for the archiver without batch system and [submit_resubmits] otherwise. *)
Theorem run_args_whitelist (job : string) (no_batch : bool)
    (run_args : list (string * bool)) :
  (forall k v flag,
     In (k, (v, flag)) (_build_run_args job no_batch run_args) ->
     v = true /\ In (k, true) run_args
     /\ assoc k (_get_supported_args job no_batch) = Some flag)
  /\ (forall k flag,
        In (k, flag) (_get_supported_args job no_batch) ->
        (k = "skip_pnl" /\ flag = "--skip-preview-namelist"
         /\ (job = "case.run" \/ job = "case.test"))
        \/ (k = "set_continue_run" /\ flag = "--completion-sets-continue-run"
            /\ job = "case.run")
        \/ (k = "resubmit" /\ flag = "--resubmit"
            /\ job = "case.st_archive" /\ no_batch = true)
        \/ (k = "submit_resubmits" /\ flag = "--resubmit"
            /\ (job = "case.run" \/ job = "case.st_archive" /\ no_batch = false))).
Proof.
  split.
  - intros k v flag Hin. unfold _build_run_args in Hin.
    apply in_flat_map in Hin. destruct Hin as ([name value] & Hargs & Hin).
    destruct value; [| destruct Hin].
    destruct (assoc name (_get_supported_args job no_batch)) as [f|] eqn:Hf;
      [| destruct Hin].
    destruct Hin as [Heq | []]. inversion Heq; subst. auto.
  - intros k flag. unfold _get_supported_args. cbn [existsb].
    destruct (String.eqb job "case.run") eqn:Hrun;
      destruct (String.eqb job "case.test") eqn:Htest;
      destruct (String.eqb job "case.st_archive") eqn:Harch;
      destruct no_batch;
      try apply String.eqb_eq in Hrun; try apply String.eqb_eq in Htest;
      try apply String.eqb_eq in Harch;
      cbn [orb andb app In];
      intros Hin;
      repeat match goal with
             | H : _ \/ _ |- _ => destruct H
             | H : False |- _ => destruct H
             | H : (_, _) = (_, _) |- _ => inversion H; subst k flag; clear H
             end;
      tauto.
Qed.

Section MailFacts.
Context {node : Type} {X : GenericXML node} {U : Utils}.

(** The entries of [batch_mail_type], stripped. *)
Lemma get_batch_mail_type_entry (raw t : string) (idx : nat) :
  get_value "batch_mail_type" None true None = Ok (Some raw) ->
  Py.index t mail_type_names = Some idx ->
  get_batch_mail_type t
  = Ok (nth_error (map Py.strip (Py.split_on ","%char raw)) idx).
Proof.
  intros Hraw Hidx. unfold get_batch_mail_type. rewrite Hraw. cbn [rbind].
  rewrite Hidx. reflexivity.
Qed.

(** X17: [batch_mail_type] lists the scheduler's word for never, all,
    begin, end and fail, in that order.  When the list is too short for a
    mail type that is asked for, that type has no word, and building the
    mail flags raises [TypeError]; a mail type that is none of the five
    raises [ValueError]. *)
Theorem mail_type_without_word (job raw flag t : string) (submitargs : string) :
  get_value "batch_mail_type_flag" None true None = Ok (Some flag) ->
  get_value "batch_mail_type" None true None = Ok (Some raw) ->
  (forall idx,
     Py.index t mail_type_names = Some idx ->
     (length (Py.split_on ","%char raw) <= idx)%nat ->
     mail_type_clause job (Some [t]) submitargs = Err TypeError)
  /\ (~ In t mail_type_names ->
      mail_type_clause job (Some [t]) submitargs = Err ValueError).
Proof.
  intros Hflag Hraw. split.
  - intros idx Hidx Hshort.
    unfold mail_type_clause. cbn [rbind]. rewrite Hflag. cbn [rbind mail_type_args_of].
    rewrite (@get_batch_mail_type_entry raw t idx Hraw Hidx). cbn [rbind].
    assert (Hnone : nth_error (map Py.strip (Py.split_on ","%char raw)) idx = None).
    { apply nth_error_None. rewrite length_map. exact Hshort. }
    rewrite Hnone. reflexivity.
  - intros Hunknown.
    unfold mail_type_clause. cbn [rbind]. rewrite Hflag. cbn [rbind mail_type_args_of].
    unfold get_batch_mail_type. rewrite Hraw. cbn [rbind].
    assert (Hidx : Py.index t mail_type_names = None)
      by (apply index_absent; exact Hunknown).
    rewrite Hidx. reflexivity.
Qed.

End MailFacts.

(** ** The further properties on concrete inputs *)

Lemma walltime_only_restricts_witness :
  queue_meets_spec (X := Fixture.xml Fixture.machine) (U := Fixture.utils)
    "regular" 8 64 None None = Ok true.
Proof.
  apply (proj1 (@walltime_only_restricts _ (Fixture.xml Fixture.machine) Fixture.utils
                  8 64 "00:45:00" None)).
  reflexivity.
Defined.

Lemma queue_meets_spec_bounds_witness :
  queue_meets_spec (X := Fixture.xml Fixture.machine) (U := Fixture.utils)
    "regular" 101 64 (Some "not a time") None = Ok false.
Proof.
  destruct (@queue_meets_spec_bounds _ (Fixture.xml Fixture.machine) Fixture.utils
              "regular"
              {| nodemin := None; nodemax := Some 100%Z; jobname := None;
                 walltimemax := Some "01:00:00"; jobmin := None; jobmax := None;
                 strict := true |}
              101 64 None)
    as (_ & Hout).
  - reflexivity.
  - left. reflexivity.
  - apply Hout. intros [[_ Hhigh] _]. specialize (Hhigh 100%Z eq_refl). lia.
Defined.

Lemma no_queues_found_witness :
  select_best_queue (X := Fixture.xml Bench.bare_machine) (U := Fixture.utils)
    1 1 None None = Err (CIMEError "No queues found").
Proof.
  apply (@no_queues_found _ (Fixture.xml Bench.bare_machine) Fixture.utils).
  - intros bsnode [<- | []]. reflexivity.
  - intros bsnode [<- | []]. reflexivity.
Defined.

Lemma select_best_queue_raises_witness :
  select_best_queue (X := Fixture.xml Fixture.machine) (U := Fixture.utils)
    3 3 (Some "09:00:00") None
  = Err (CIMEError "Cannot specify both nodemin and jobmin for a queue").
Proof.
  apply (@select_best_queue_raises _ (Fixture.xml Fixture.machine) Fixture.utils
           ["regular"; "debug"; "regular"; "share"; "long"] [] "broken").
  - reflexivity.
  - repeat (constructor; [reflexivity |]). constructor.
  - reflexivity.
Defined.



Lemma job_defaults_pass_guard_witness :
  job_queue_guard (X := Fixture.xml Bench.strict_machine) "regular" false = Ok tt
  /\ job_queue_guard (X := Fixture.xml Bench.strict_machine) "mystery" true = Ok tt.
Proof.
  split.
  - apply (@job_defaults_pass_guard _ (Fixture.xml Bench.strict_machine) Fixture.utils
             None (Some "02:00:00") 50 800 "case.run" false
             "regular" "02:00:00" false ["regular"; "debug"; "regular"]);
      reflexivity.
  - apply (@job_defaults_pass_guard _ (Fixture.xml Bench.strict_machine) Fixture.utils
             (Some "mystery") (Some "02:00:00") 50 800 "case.run" false
             "mystery" "02:00:00" true ["regular"; "debug"; "regular"]);
      reflexivity.
Defined.

Lemma get_batch_system_type_last_witness :
  _batchtype (get_batch_system_type (X := Fixture.xml (Fixture.workflow "slurm"))
                Bench.cobalt) = Some "slurm".
Proof.
  eapply (@get_batch_system_type_last _ (Fixture.xml (Fixture.workflow "slurm"))
            Bench.cobalt [] []).
  - reflexivity.
  - reflexivity.
  - constructor.
Defined.

Lemma dry_run_runs_nothing_witness :
  let st := Fixture.initial 3 in
  let run := submit_jobs (X := Fixture.xml (Fixture.workflow "pbs"))
               (U := Fixture.utils) (R := Fixture.runtime 0)
               Fixture.pbs false None None false false true None None None true st in
  outside (the_world (snd run)) = O /\ exists cmds, fst run = Ok (JobCmds cmds).
Proof.
  intros st run.
  destruct (@dry_run_runs_nothing _ _ (Fixture.xml (Fixture.workflow "pbs"))
              Fixture.utils (Fixture.runtime 0) Fixture.pbs false None None
              false false true None None None st)
    as (_ & Hout & _ & _ & Hcmds).
  split; [exact Hout |].
  destruct (Hcmds (match fst run with Ok r => r | Err _ => DepIds ∅ end)) as (cmds & Hr).
  - vm_compute. reflexivity.
  - exists cmds. rewrite <- Hr. vm_compute. reflexivity.
Defined.

(** Two rounds of the workflow on the batch system. *)
Lemma second_round_waits_for_first_witness :
  let jobs := [("case.run", None); ("case.st_archive", Some "case.run");
               ("case.lt_archive", None)] in
  let run := submit_rounds (X := Fixture.xml (Fixture.workflow "pbs"))
               (U := Fixture.utils) (R := Fixture.runtime 0)
               Fixture.pbs ["case.run"; "case.st_archive"; "case.lt_archive"]
               false None false false true None None None false
               2 jobs None fresh_vars (Fixture.initial 0) in
  exists evs1 evs2 last_id,
    log (snd run) = evs1 ++ evs2
    /\ map fst (dep_events evs2) = ["case.run"; "case.st_archive"; "case.lt_archive"]
    /\ (forall p, last_id = Some p -> Forall (ends_with p) (dep_events evs2)).
Proof.
  intros jobs run.
  destruct (@second_round_waits_for_first _ _ (Fixture.xml (Fixture.workflow "pbs"))
              Fixture.utils (Fixture.runtime 0) Fixture.pbs
              ["case.run"; "case.st_archive"; "case.lt_archive"]
              false None false false true None None None false
              jobs fresh_vars
              (match fst run with Ok v => v | Err _ => fresh_vars end)
              (Fixture.initial 0) (snd run))
    as (ids1 & ids2 & evs1 & evs2 & dm1 & last_id & Hlog & _ & _ & _ & _ & _ & _
        & Hnames & Hends).
  - reflexivity.
  - discriminate.
  - vm_compute. reflexivity.
  - exists evs1, evs2, last_id. repeat split; assumption.
Defined.

Lemma cobalt_single_job_witness :
  let chosen := eligible_jobs (X := Fixture.xml (Fixture.workflow "cobalt"))
                  (U := Fixture.utils) (R := Fixture.runtime 0)
                  Bench.cobalt None false (Fixture.initial 0) in
  exists jobs, fst chosen = Ok jobs /\ (length jobs <= 1)%nat.
Proof.
  intros chosen.
  assert (Hrun : chosen = (Ok [("case.run", None)], snd chosen)) by reflexivity.
  exists [("case.run", None)]. split; [rewrite Hrun; reflexivity |].
  exact (proj1 (@cobalt_single_job _ _ (Fixture.xml (Fixture.workflow "cobalt"))
                  Fixture.utils (Fixture.runtime 0) Bench.cobalt false None None
                  false false false None None None false
                  [("case.run", None)] (Fixture.initial 0) (snd chosen)
                  eq_refl Hrun)).
Defined.

Lemma prereq_holds_cases_witness :
  fst (prereq_holds (X := Fixture.xml Bench.gated_workflow) (U := Fixture.utils)
         (R := Fixture.runtime 0) false None "case.st_archive" (Fixture.initial 0))
  = Err (CIMEError "Unable to evaluate prereq expression '$DOUT_S' for job 'case.st_archive'")
  /\ fst (prereq_holds (X := Fixture.xml Bench.gated_workflow) (U := Fixture.utils)
            (R := Fixture.runtime 0) true None "case.run" (Fixture.initial 0))
     = Ok true.
Proof.
  split.
  - destruct (@prereq_holds_cases _ _ (Fixture.xml Bench.gated_workflow) Fixture.utils
                (Fixture.runtime 0) false None "case.st_archive" (Fixture.initial 0)
                (Some "$DOUT_S") eq_refl)
      as (_ & Hfail).
    rewrite (Hfail "$DOUT_S" (Some "$DOUT_S")); try reflexivity.
    intros resolved Hres. inversion Hres. reflexivity.
  - destruct (@prereq_holds_cases _ _ (Fixture.xml Bench.gated_workflow) Fixture.utils
                (Fixture.runtime 0) true None "case.run" (Fixture.initial 0)
                (Some "$BUILD_COMPLETE") eq_refl)
      as (Hexempt & _).
    rewrite Hexempt; reflexivity.
Defined.

Lemma start_job_first_witness :
  let chosen := eligible_jobs (X := Fixture.xml (Fixture.workflow "pbs"))
                  (U := Fixture.utils) (R := Fixture.runtime 0)
                  Fixture.pbs (Some "case.st_archive") false (Fixture.initial 0) in
  exists dep rest,
    fst chosen = Ok (("case.st_archive", dep) :: rest)
    /\ sublist ("case.st_archive" :: map fst rest) ["case.st_archive"; "case.lt_archive"].
Proof.
  intros chosen.
  assert (Hrun : chosen
                 = (Ok [("case.st_archive", Some "case.run"); ("case.lt_archive", None)],
                    snd chosen)) by reflexivity.
  destruct (@start_job_first _ _ (Fixture.xml (Fixture.workflow "pbs")) Fixture.utils
              (Fixture.runtime 0) Fixture.pbs false "case.st_archive" 1
              _ (Fixture.initial 0) (snd chosen) eq_refl Hrun)
    as ((dep & rest & Hjobs) & Hsub & _).
  exists dep, rest. rewrite Hrun. cbn [fst]. rewrite Hjobs.
  split; [reflexivity |]. rewrite Hjobs in Hsub. exact Hsub.
Defined.

Lemma planning_failure_submits_nothing_witness :
  submit_jobs (X := Fixture.xml (Fixture.workflow "pbs"))
    (U := Fixture.utils) (R := Fixture.runtime 0)
    Fixture.pbs false (Some "case.nope") None false false true None None None false
    (Fixture.initial 5)
  = (Err (CIMEError "Do not know about batch job case.nope"), Fixture.initial 5).
Proof.
  apply (@planning_failure_submits_nothing _ _ (Fixture.xml (Fixture.workflow "pbs"))
           Fixture.utils (Fixture.runtime 0) Fixture.pbs false (Some "case.nope") None
           false false true None None None false (Fixture.initial 5)).
  - reflexivity.
  - cbv. intros [H | [H | [H | []]]]; discriminate.
Defined.

Lemma nothing_eligible_raises_witness :
  let run := submit_jobs (X := Fixture.xml Bench.idle_workflow)
               (U := Fixture.utils) (R := Fixture.runtime 0)
               Fixture.pbs false None None false false true None None None false
               (Fixture.initial 4) in
  fst run = Err UnboundLocalError /\ RESUBMIT (the_world (snd run)) = 0%Z.
Proof.
  intros run.
  destruct (@nothing_eligible_raises _ _ (Fixture.xml Bench.idle_workflow)
              Fixture.utils (Fixture.runtime 0) Fixture.pbs false None None
              false false true None None None false (Fixture.initial 4)
              (snd (eligible_jobs (X := Fixture.xml Bench.idle_workflow)
                      (U := Fixture.utils) (R := Fixture.runtime 0)
                      Fixture.pbs None false (Fixture.initial 4))))
    as (Hraise & _ & Hcounter).
  - reflexivity.
  - split; [exact Hraise | exact (Hcounter eq_refl)].
Defined.

Lemma mail_type_without_word_witness :
  mail_type_clause (X := Fixture.xml Bench.mail_machine) (U := Fixture.utils)
    "case.run" (Some ["fail"]) "-q batch" = Err TypeError
  /\ mail_type_clause (X := Fixture.xml Bench.mail_machine) (U := Fixture.utils)
       "case.run" (Some ["sometimes"]) "-q batch" = Err ValueError.
Proof.
  destruct (@mail_type_without_word _ (Fixture.xml Bench.mail_machine) Fixture.utils
              "case.run" "n, a, b" "-m" "fail" "-q batch" eq_refl eq_refl)
    as (Hshort & _).
  destruct (@mail_type_without_word _ (Fixture.xml Bench.mail_machine) Fixture.utils
              "case.run" "n, a, b" "-m" "sometimes" "-q batch" eq_refl eq_refl)
    as (_ & Hunknown).
  split.
  - apply (Hshort 4%nat); [reflexivity | cbv; lia].
  - apply Hunknown. cbv. intros [H | [H | [H | [H | [H | []]]]]]; discriminate.
Defined.

(** The known mail types of that scheduler are rendered after one flag. *)
Example mail_type_clause_rendering :
  mail_type_clause (X := Fixture.xml Bench.mail_machine) (U := Fixture.utils)
    "case.run" (Some ["all"; "begin"]) "-q batch" = Ok "-q batch -m ab".
Proof. reflexivity. Qed.
